(** * proxmin.nmf: gradient model, proximal compositor, step-size controller

    A shallow embedding of [src/proxmin/nmf.py].

    Numbers.  Python integers ([it], [stride], [last], [max_stride], factor
    indices) are [Z].  Python/numpy floating-point numbers are idealised as
    exact rationals [Q]; no rounding is modelled.  What depends on the
    rounding of a floating-point result, such as the integer
    [int(budget / rel_error * stride[j])] of line 92, is therefore outside
    the model: on arbitrary inputs the theorems below say of that growth
    only that it is at least 1, and the closed runs that show a growth use
    numbers on which every operation involved is exact in binary64
    ([slack = 1/2], bounds 16 and 17).  A division whose divisor is zero is a distinguished outcome of
    the model ([ZeroDivisionError]): it is the event "a quotient with zero
    denominator was evaluated".  Python raises there on its own floats;
    numpy scalars answer inf or nan with a warning and the call goes on.
    The model ends the call at that event, so the theorems below say of
    such a call only that the event occurs; what they state along sequences
    of calls (the counter [it], the bounds on [stride], an undefined
    [stored[j]]) holds whichever way such a call ends.

    Exceptions.  Every operation that can fail returns [res], whose [Raise]
    carries the Python exception class and the line of [nmf.py] on which it
    surfaces.  The controller is a Python object mutated in place, so its
    state survives an exception: the controller monad returns the state
    reached at the raise as well.

    Arrays.  A numpy array is two-dimensional here: a shape and its rows.
    Keyword defaults that only exist so that [functools.partial] can bind
    them later ([Xs], [Y], [S], [A], [prox_g]) are modelled as required
    arguments. *)

From Stdlib Require Import ZArith QArith Qabs List Lia Bool.
Import ListNotations.

Local Open Scope Z_scope.

(** ** Exceptions *)

Inductive exn : Set :=
| AssertionError
| AttributeError
| IndexError
| TypeError
| ValueError
| ZeroDivisionError.

Inductive res (A : Type) : Type :=
| Ok (a : A)
| Raise (e : exn) (line : Z).

Arguments Ok {A} a.
Arguments Raise {A} e line.

Definition res_bind {A B : Type} (r : res A) (k : A -> res B) : res B :=
  match r with
  | Ok a => k a
  | Raise e l => Raise e l
  end.

Declare Scope res_scope.
Delimit Scope res_scope with res.
Notation "x <- r ;; k" := (res_bind r (fun x => k))
  (at level 61, r at next level, right associativity) : res_scope.

(** ** Python sequences: indexing with negative indices *)

(** [l[j]] for a Python list of length [n]: [0 <= j < n] counts from the
    front, [-n <= j < 0] from the back, anything else is an [IndexError]. *)
Definition py_index (n : nat) (j : Z) : option nat :=
  if (0 <=? j) && (j <? Z.of_nat n) then Some (Z.to_nat j)
  else if (- Z.of_nat n <=? j) && (j <? 0) then Some (Z.to_nat (j + Z.of_nat n))
  else None.

Definition getitem {A : Type} (line : Z) (l : list A) (j : Z) : res A :=
  match py_index (length l) j with
  | Some i => match nth_error l i with
              | Some a => Ok a
              | None => Raise IndexError line
              end
  | None => Raise IndexError line
  end.

Fixpoint list_set {A : Type} (l : list A) (i : nat) (a : A) : list A :=
  match l, i with
  | [], _ => []
  | _ :: t, O => a :: t
  | h :: t, S i' => h :: list_set t i' a
  end.

Definition setitem {A : Type} (line : Z) (l : list A) (j : Z) (a : A)
  : res (list A) :=
  match py_index (length l) j with
  | Some i => Ok (list_set l i a)
  | None => Raise IndexError line
  end.

(** ** Numbers *)

Definition Qlt_bool (a b : Q) : bool := negb (Qle_bool b a).

(** Python's [int(x)] on a float truncates towards zero. *)
Definition py_int (x : Q) : Z := Z.quot (Qnum x) (Zpos (Qden x)).

(** [a / b] on numbers; a zero divisor is the marked event described
    above, where numpy would answer inf or nan. *)
Definition truediv (line : Z) (a b : Q) : res Q :=
  if Qeq_bool b 0 then Raise ZeroDivisionError line else Ok (a / b)%Q.

(** ** Two-dimensional arrays *)

Record ndarray : Type := mk_ndarray {
  nrows : nat;
  ncols : nat;
  rows : list (list Q)
}.

Definition entry (m : ndarray) (i j : nat) : Q :=
  nth j (nth i (rows m) []) 0%Q.

(** The [M]x[N] array whose entry [(i, j)] is [f i j]. *)
Definition tabulate (M N : nat) (f : nat -> nat -> Q) : ndarray :=
  mk_ndarray M N (map (fun i => map (fun j => f i j) (seq 0 N)) (seq 0 M)).

Definition well_shaped (m : ndarray) : Prop :=
  length (rows m) = nrows m /\
  Forall (fun r => length r = ncols m) (rows m).

Definition has_shape (M N : nat) (m : ndarray) : Prop :=
  nrows m = M /\ ncols m = N /\ well_shaped m.

Fixpoint sumQ (n : nat) (f : nat -> Q) : Q :=
  match n with
  | O => 0%Q
  | S n' => (sumQ n' f + f n')%Q
  end.

(** [X.T] *)
Definition T (X : ndarray) : ndarray :=
  tabulate (ncols X) (nrows X) (fun i j => entry X j i).

(** [X.dot(Y)]: the inner dimensions must agree. *)
Definition dot (line : Z) (X Y : ndarray) : res ndarray :=
  if Nat.eqb (ncols X) (nrows Y)
  then Ok (tabulate (nrows X) (ncols Y)
             (fun i j => sumQ (ncols X) (fun k => entry X i k * entry Y k j)%Q))
  else Raise ValueError line.

(** numpy broadcasting of one axis: equal lengths, or one of them is 1. *)
Definition bcast_dim (a b : nat) : option nat :=
  if Nat.eqb a b then Some a
  else if Nat.eqb a 1 then Some b
  else if Nat.eqb b 1 then Some a
  else None.

Definition bcast_ix (a i : nat) : nat := if Nat.eqb a 1 then O else i.

(** An elementwise binary operator on two arrays, with broadcasting. *)
Definition elementwise (line : Z) (op : Q -> Q -> Q) (X Y : ndarray)
  : res ndarray :=
  match bcast_dim (nrows X) (nrows Y), bcast_dim (ncols X) (ncols Y) with
  | Some M, Some N =>
      Ok (tabulate M N (fun i j =>
            op (entry X (bcast_ix (nrows X) i) (bcast_ix (ncols X) j))
               (entry Y (bcast_ix (nrows Y) i) (bcast_ix (ncols Y) j))))
  | _, _ => Raise ValueError line
  end.

(** [c * X] for a number [c]. *)
Definition scale (c : Q) (X : ndarray) : ndarray :=
  tabulate (nrows X) (ncols X) (fun i j => (c * entry X i j)%Q).

(** The weight argument [W]: [None], a plain Python number, or an array. *)
Inductive weight : Type :=
| W_None
| W_scalar (w : Q)
| W_array (m : ndarray).

(** [W * D] *)
Definition weight_mul (line : Z) (W : weight) (D : ndarray) : res ndarray :=
  match W with
  | W_None => Raise TypeError line
  | W_scalar w => Ok (scale w D)
  | W_array m => elementwise line Qmult m D
  end.

(** ** GradientModel (nmf.py, lines 11-20) *)

Definition delta_data (A S Y : ndarray) (W : weight) : res ndarray :=
  (AS <- dot 12 A S ;;
   R <- elementwise 12 Qminus AS Y ;;
   weight_mul 12 W R)%res.

Definition grad_likelihood_A (A S Y : ndarray) (W : weight) : res ndarray :=
  (D <- delta_data A S Y W ;;
   dot 16 D (T S))%res.

Definition grad_likelihood_S (S A Y : ndarray) (W : weight) : res ndarray :=
  (D <- delta_data A S Y W ;;
   dot 20 (T A) D)%res.

(** ** ProxCompositor (nmf.py, lines 23-34) *)

(** A projection operator [prox_g(X, step)]. *)
Definition prox := ndarray -> Q -> res ndarray.

Definition prox_likelihood_A (A : ndarray) (step : Q) (S Y : ndarray)
  (prox_g : prox) (W : weight) : res ndarray :=
  (G <- grad_likelihood_A A S Y W ;;
   X <- elementwise 24 Qminus A (scale step G) ;;
   prox_g X step)%res.

Definition prox_likelihood_S (S : ndarray) (step : Q) (A Y : ndarray)
  (prox_g : prox) (W : weight) : res ndarray :=
  (G <- grad_likelihood_S S A Y W ;;
   X <- elementwise 27 Qminus S (scale step G) ;;
   prox_g X step)%res.

(** [j] is [None] (the default) or an integer. *)
Definition prox_likelihood (X : ndarray) (step : Q) (Xs : list ndarray)
  (j : option Z) (Y : ndarray) (W : weight) (prox_S prox_A : prox)
  : res ndarray :=
  match j with
  | Some 0 =>
      (S <- getitem 32 Xs 1 ;;
       prox_likelihood_A X step S Y prox_A W)%res
  | _ =>
      (A <- getitem 34 Xs 0 ;;
       prox_likelihood_S X step A Y prox_S W)%res
  end.

(** Modelled from the spec: the projection library [operators] is not part
    of the sources; the identity projection is [identity_projection(X, step)
    = X] (the default [operators.prox_id] of [prox_likelihood]). *)
Definition prox_id : prox := fun X _ => Ok X.

(** Modelled from the spec: [non_negativity_projection(X, step) = max(X, 0)]
    elementwise (the default [operators.prox_plus] of [nmf]). *)
Definition prox_plus : prox :=
  fun X _ => Ok (tabulate (nrows X) (ncols X)
                   (fun i j => if Qle_bool (entry X i j) 0 then 0%Q
                               else entry X i j)).

(** ** StepSizeController (nmf.py, lines 36-99) *)

Module Steps_AS.

(** The attributes of a [Steps_AS] instance.  [stored[j]] is [None] until
    the first Lipschitz constant for factor [j] has been written. *)
Record t : Type := mk {
  slack : Q;
  WSmax : Q;
  WAmax : Q;
  max_stride : Z;
  advance_index : Z;
  it : Z;
  stride : list Z;
  last : list Z;
  stored : list (option Q)
}.

Definition set_it (v : Z) (s : t) : t :=
  mk (slack s) (WSmax s) (WAmax s) (max_stride s) (advance_index s)
     v (stride s) (last s) (stored s).

Definition set_stride (v : list Z) (s : t) : t :=
  mk (slack s) (WSmax s) (WAmax s) (max_stride s) (advance_index s)
     (it s) v (last s) (stored s).

Definition set_last (v : list Z) (s : t) : t :=
  mk (slack s) (WSmax s) (WAmax s) (max_stride s) (advance_index s)
     (it s) (stride s) v (stored s).

Definition set_stored (v : list (option Q)) (s : t) : t :=
  mk (slack s) (WSmax s) (WAmax s) (max_stride s) (advance_index s)
     (it s) (stride s) (last s) v.

(** [__init__] (lines 37-75).  [None] arguments are [None : option _]. *)
Definition __init__ (slack : Q) (Wmax : option Q) (max_stride : Z)
  (update_order : option (list Z)) (WAmax WSmax : option Q) : res t :=
  if negb (Qlt_bool 0 slack && Qle_bool slack 1) then Raise AssertionError 49
  else
    let '(WAmax, Wmax) :=
      match WAmax with
      | None => match Wmax with
                | None => (1%Q, Some 1%Q)
                | Some w => (w, Wmax)
                end
      | Some a => (a, Wmax)
      end in
    let WSmax :=
      match WSmax with
      | None => match Wmax with
                | None => 1%Q
                | Some w => w
                end
      | Some b => b
      end in
    (advance_index <-
       match update_order with
       | None => Ok 1
       | Some l => getitem 69 l (-1)
       end ;;
     Ok (mk slack WSmax WAmax max_stride advance_index
            0 [1; 1] [-1; -1] [None; None]))%res.

(** *** The controller monad: state that survives exceptions, and a log of
    the arguments on which the spectral norm was evaluated. *)

Record outcome (A : Type) : Type := mk_outcome {
  result : res A;
  state : t;
  norm_calls : list ndarray
}.

Arguments mk_outcome {A} result state norm_calls.
Arguments result {A} o.
Arguments state {A} o.
Arguments norm_calls {A} o.

Definition M (A : Type) : Type := t -> outcome A.

Definition ret {A : Type} (a : A) : M A :=
  fun s => mk_outcome (Ok a) s [].

Definition bind {A B : Type} (m : M A) (k : A -> M B) : M B :=
  fun s =>
    match m s with
    | mk_outcome (Ok a) s' log =>
        match k a s' with
        | mk_outcome r s'' log' => mk_outcome r s'' (log ++ log')
        end
    | mk_outcome (Raise e l) s' log => mk_outcome (Raise e l) s' log
    end.

Definition lift {A : Type} (r : res A) : M A :=
  fun s => mk_outcome r s [].

Definition get : M t := fun s => mk_outcome (Ok s) s [].

Definition modify (f : t -> t) : M unit :=
  fun s => mk_outcome (Ok tt) (f s) [].

Declare Scope ctl_scope.
Delimit Scope ctl_scope with ctl.
Notation "x <- m ;; k" := (bind m (fun x => k))
  (at level 61, m at next level, right associativity) : ctl_scope.
Notation "m ;; k" := (bind m (fun _ => k))
  (at level 61, right associativity) : ctl_scope.

(** A stored Lipschitz constant used as a number: [None] is not one. *)
Definition as_number (line : Z) (v : option Q) : res Q :=
  match v with
  | Some q => Ok q
  | None => Raise TypeError line
  end.

Section Controller.

(** [utils.get_spectral_norm], an external collaborator. *)
Variable get_spectral_norm : ndarray -> Q.

Definition spectral_norm (X : ndarray) : M Q :=
  fun s => mk_outcome (Ok (get_spectral_norm X)) s [X].

Local Open Scope ctl_scope.

(** Lines 80-83: the Lipschitz bound of the gradient for factor [j]. *)
Definition lipschitz (j : Z) (Xs : list ndarray) : M Q :=
  if j =? 0 then
    S <- lift (getitem 81 Xs 1) ;;
    n <- spectral_norm (T S) ;;
    self <- get ;;
    ret (n * WAmax self)%Q
  else
    A <- lift (getitem 83 Xs 0) ;;
    n <- spectral_norm A ;;
    self <- get ;;
    ret (n * WSmax self)%Q.

(** Lines 84-85 and 96-97: the iteration counter advances on the factor
    that closes an outer iteration. *)
Definition advance (j : Z) : M unit :=
  self <- get ;;
  if j =? advance_index self then modify (set_it (it self + 1))
  else ret tt.

(** Lines 88-93: the stride grows when the relative change of [L] stayed
    within the slack budget. *)
Definition adapt_stride (j : Z) (L : Q) : M unit :=
  self <- get ;;
  if (it self >? 1) && Qlt_bool (slack self) 1 then
    old <- lift (getitem 89 (stored self) j) ;;
    old <- lift (as_number 89 old) ;;
    rel_error <- lift (truediv 89 (Qabs (old - L)) old) ;;
    let budget := ((1 - slack self) / 2)%Q in
    if Qlt_bool rel_error budget && Qlt_bool 0 rel_error then
      stride_j <- lift (getitem 92 (stride self) j) ;;
      ratio <- lift (truediv 92 budget rel_error) ;;
      grown <- lift (setitem 92 (stride self) j
                 (stride_j + Z.max 1 (py_int (ratio * inject_Z stride_j)))) ;;
      modify (set_stride grown) ;;
      stride_j <- lift (getitem 93 grown j) ;;
      clamped <- lift (setitem 93 grown j (Z.min (max_stride self) stride_j)) ;;
      modify (set_stride clamped)
    else ret tt
  else ret tt.

(** [__call__] (lines 77-99). *)
Definition __call__ (j : Z) (Xs : list ndarray) : M Q :=
  self <- get ;;
  last_j <- lift (getitem 78 (last self) j) ;;
  stride_j <- lift (getitem 78 (stride self) j) ;;
  (if it self >=? last_j + stride_j then
     last' <- lift (setitem 79 (last self) j (it self)) ;;
     modify (set_last last') ;;
     L <- lipschitz j Xs ;;
     advance j ;;
     adapt_stride j L ;;
     self <- get ;;
     stored' <- lift (setitem 95 (stored self) j (Some L)) ;;
     modify (set_stored stored')
   else advance j) ;;
  self <- get ;;
  stored_j <- lift (getitem 99 (stored self) j) ;;
  stored_j <- lift (as_number 99 stored_j) ;;
  lift (truediv 99 (slack self) stored_j).

(** A sequence of calls on the same controller object.  The caller may
    catch an exception and call again: the state reached at a raise is the
    state the next call starts from. *)
Fixpoint calls (s : t) (js : list (Z * list ndarray)) : t :=
  match js with
  | [] => s
  | (j, Xs) :: js' => calls (state (__call__ j Xs s)) js'
  end.

End Controller.

End Steps_AS.

(** ** Driver (nmf.py, lines 101-163) *)

(** [W.max()] on an array: the largest entry; numpy refuses an array
    without entries. *)
Definition Qmaxb (a b : Q) : Q := if Qle_bool a b then b else a.

Definition array_max (line : Z) (m : ndarray) : res Q :=
  match concat (rows m) with
  | [] => Raise ValueError line
  | x :: xs => Ok (fold_left Qmaxb xs x)
  end.

(** Lines 145-148: [Wmax] for the step-size controller.  A plain Python
    number has no method [max]. *)
Definition normalize_W (W : weight) : res (weight * Q) :=
  match W with
  | W_None => Ok (W_scalar 1, 1%Q)
  | W_scalar _ => Raise AttributeError 146
  | W_array m => (Wmax <- array_max 146 m ;; Ok (W, Wmax))%res
  end.

(** The update rule handed to the solver: [partial(prox_likelihood, Y=Y,
    W=W, prox_S=prox_S, prox_A=prox_A)], called as [f(X, step, Xs=.., j=..)]. *)
Definition update_rule : Type :=
  ndarray -> Q -> list ndarray -> option Z -> res ndarray.

Section Driver.

(** [algorithms.bsdmm], the external block-splitting solver, with the
    arguments that [nmf] only passes through ([proxs_g], [steps_g], [Ls],
    [steps_g_update], [accelerated], [max_iter], [e_rel], [e_abs]) bundled
    in [passthrough].  It receives the freshly built controller and
    returns the final factors and its trace. *)
Variable passthrough : Type.
Variable trace : Type.
Variable bsdmm :
  list ndarray -> update_rule -> Steps_AS.t -> passthrough ->
  option (list Z) -> bool -> res (list ndarray * trace).

(** Lines 151-163: the update rule is bound, the solver runs, and its
    result is unpacked. *)
Definition nmf_run (Y A0 S0 : ndarray) (W : weight) (prox_A prox_S : prox)
  (steps_f : Steps_AS.t) (update_order : option (list Z))
  (traceback : bool) (rest : passthrough)
  : res (ndarray * ndarray * option trace) :=
  (let f : update_rule :=
     fun X step Xs j => prox_likelihood X step Xs j Y W prox_S prox_A in
   r <- bsdmm [A0; S0] f steps_f rest update_order traceback ;;
   if negb traceback then
     A <- getitem 161 (fst r) 0 ;;
     S <- getitem 161 (fst r) 1 ;;
     Ok (A, S, None)
   else
     A <- getitem 163 (fst r) 0 ;;
     S <- getitem 163 (fst r) 1 ;;
     Ok (A, S, Some (snd r)))%res.

(** [nmf] (lines 101-163). *)
Definition nmf (Y A0 S0 : ndarray) (W : weight) (prox_A prox_S : prox)
  (slack : Q) (update_order : option (list Z)) (traceback : bool)
  (rest : passthrough) : res (ndarray * ndarray * option trace) :=
  (WW <- normalize_W W ;;
   steps_f <- Steps_AS.__init__ slack (Some (snd WW)) 100 update_order
                None None ;;
   nmf_run Y A0 S0 (fst WW) prox_A prox_S steps_f update_order traceback
     rest)%res.

End Driver.


(** ** Vocabulary of the statements *)

(** The weight that multiplies entry [(i, j)] of the residual. *)
Definition weight_at (W : weight) (i j : nat) : Q :=
  match W with
  | W_None => 0%Q
  | W_scalar w => w
  | W_array m => entry m (bcast_ix (nrows m) i) (bcast_ix (ncols m) j)
  end.

(** [W] is a number, or an array that numpy broadcasts to [M]x[N]. *)
Definition broadcastable (M N : nat) (W : weight) : Prop :=
  match W with
  | W_None => False
  | W_scalar _ => True
  | W_array m =>
      well_shaped m /\
      (nrows m = M \/ nrows m = 1%nat) /\ (ncols m = N \/ ncols m = 1%nat)
  end.

(** The residual entry [(i, j)], written out: [W (.) (A.S - Y)]. *)
Definition residual_at (A S Y : ndarray) (W : weight) (K i j : nat) : Q :=
  (weight_at W i j *
   (sumQ K (fun k => entry A i k * entry S k j) - entry Y i j))%Q.

(** A controller whose three per-factor lists have their two entries. *)
Definition wf (s : Steps_AS.t) : Prop :=
  length (Steps_AS.stride s) = 2%nat /\
  length (Steps_AS.last s) = 2%nat /\
  length (Steps_AS.stored s) = 2%nat.

(** How one call may change the strides: an entry stays, or it grows by
    some [g >= 1] and is clamped to [max_stride]. *)
Definition stride_step (ms : Z) (sd sd' : list Z) : Prop :=
  length sd' = 2%nat /\
  forall k, nth k sd' 0 = nth k sd 0 \/
    exists g, 1 <= g /\ nth k sd' 0 = Z.min ms (nth k sd 0 + g).

(** The Lipschitz bound a recompute for factor [j] computes from
    [Xs = [A, S]], and the array it hands to the spectral norm. *)
Definition lipschitz_bound (norm : ndarray -> Q) (s : Steps_AS.t) (j : Z)
  (A S : ndarray) : Q :=
  if j =? 0 then (norm (T S) * Steps_AS.WAmax s)%Q
  else (norm A * Steps_AS.WSmax s)%Q.

Definition norm_argument (j : Z) (A S : ndarray) : ndarray :=
  if j =? 0 then T S else A.

(** The outcomes of the calls of a sequence, in order. *)
Fixpoint results (norm : ndarray -> Q) (s : Steps_AS.t)
  (js : list (Z * list ndarray)) : list (res Q) :=
  match js with
  | [] => []
  | (j, Xs) :: js' =>
      Steps_AS.result (Steps_AS.__call__ norm j Xs s)
      :: results norm (Steps_AS.state (Steps_AS.__call__ norm j Xs s)) js'
  end.

(** A stored constant that can serve as a divisor: a non-zero number. *)
Definition usable (v : option Q) : Prop :=
  exists q, v = Some q /\ ~ (q == 0)%Q.

(** The solver's default schedule: factor 0, then factor 1, round after
    round, each call on the factors current at that point. *)
Definition schedule_AS (rounds : list (list ndarray * list ndarray))
  : list (Z * list ndarray) :=
  flat_map (fun r => [(0, fst r); (1, snd r)]) rounds.

(** ** Concrete inputs *)

(** Modelled from the spec: [utils.get_spectral_norm] is not part of the
    sources; [spectral_norm(matrix)] is the largest singular value, which
    for a 1x1 array [[a]] is [|a|].  It instantiates the norm when the
    controller is run on 1x1 factors. *)
Definition spectral_norm_1x1 (X : ndarray) : Q := Qabs (entry X 0 0).

Definition array_1x1 (a : Q) : ndarray := mk_ndarray 1 1 [[a]].

Definition ex_A : ndarray := mk_ndarray 2 2 [[1; 0]; [0; 1]]%Q.
Definition ex_S : ndarray := mk_ndarray 2 2 [[2; 1]; [1; 3]]%Q.
Definition ex_Y : ndarray := mk_ndarray 2 2 [[1; 1]; [1; 1]]%Q.

(** The factors [[a]], [[a]]. *)
Definition ex_Xs (a : Q) : list ndarray := [array_1x1 a; array_1x1 a].

(** [Steps_AS()]: the controller built from the default arguments. *)
Definition ex_controller : Steps_AS.t :=
  Steps_AS.mk (9 # 10) 1 1 100 1 0 [1; 1] [-1; -1] [None; None].

(** [Steps_AS(slack=0.5)]. *)
Definition ex_controller_half : Steps_AS.t :=
  Steps_AS.mk (1 # 2) 1 1 100 1 0 [1; 1] [-1; -1] [None; None].

(** [Steps_AS(slack=1)]. *)
Definition ex_controller_one : Steps_AS.t :=
  Steps_AS.mk 1 1 1 100 1 0 [1; 1] [-1; -1] [None; None].

(** A controller with [max_stride = 5] whose stride for factor 1 has
    reached it. *)
Definition ex_controller_saturated : Steps_AS.t :=
  Steps_AS.mk (1 # 2) 1 1 5 1 4 [1; 5] [-1; 3] [None; Some 16%Q].

(** A default controller after two calls for factor 1: the counter is 2
    and nothing is stored for factor 0. *)
Definition ex_controller_late : Steps_AS.t :=
  Steps_AS.mk (9 # 10) 1 1 100 1 2 [1; 1] [-1; 1] [None; Some 1%Q].

(** A solver stub that returns the initial factors: the driver's own
    behaviour does not depend on what the solver does. *)
Definition bsdmm_stub (Xs : list ndarray) (f : update_rule)
  (steps_f : Steps_AS.t) (rest : unit) (update_order : option (list Z))
  (traceback : bool) : res (list ndarray * unit) := Ok (Xs, tt).

(** * Properties *)

(** ** Arrays *)

Lemma nth_map_seq {A : Type} (f : nat -> A) (d : A) (n i : nat) :
  (i < n)%nat -> nth i (map f (seq 0 n)) d = f i.
Proof.
  intros Hi.
  rewrite (nth_indep _ d (f O)) by (rewrite length_map, length_seq; exact Hi).
  rewrite map_nth, seq_nth by exact Hi. reflexivity.
Qed.

Lemma entry_tabulate (M N : nat) (f : nat -> nat -> Q) (i j : nat) :
  (i < M)%nat -> (j < N)%nat -> entry (tabulate M N f) i j = f i j.
Proof.
  intros Hi Hj. unfold entry, tabulate. simpl.
  rewrite (nth_map_seq (fun i => map (fun j => f i j) (seq 0 N))) by exact Hi.
  apply (nth_map_seq (fun j => f i j)). exact Hj.
Qed.

Lemma tabulate_has_shape (M N : nat) (f : nat -> nat -> Q) :
  has_shape M N (tabulate M N f).
Proof.
  unfold has_shape, well_shaped, tabulate. simpl.
  repeat split.
  - rewrite length_map, length_seq. reflexivity.
  - apply Forall_forall. intros r Hr.
    apply in_map_iff in Hr. destruct Hr as [i [<- _]].
    rewrite length_map, length_seq. reflexivity.
Qed.

Lemma sumQ_ext (n : nat) (f g : nat -> Q) :
  (forall k, (k < n)%nat -> f k = g k) -> sumQ n f = sumQ n g.
Proof.
  induction n as [|n IH]; intros H; simpl.
  - reflexivity.
  - rewrite IH, H by (intros; try apply H; lia). reflexivity.
Qed.

Lemma bcast_dim_to (M a : nat) :
  a = M \/ a = 1%nat -> bcast_dim a M = Some M.
Proof.
  intros [-> | ->]; unfold bcast_dim.
  - rewrite Nat.eqb_refl. reflexivity.
  - destruct (Nat.eqb_spec 1 M) as [<- | _]; reflexivity.
Qed.

Lemma bcast_ix_lt (M i : nat) : (i < M)%nat -> bcast_ix M i = i.
Proof.
  intros Hi. unfold bcast_ix.
  destruct (Nat.eqb_spec M 1) as [-> | _]; [lia | reflexivity].
Qed.

Lemma dot_shapes (line : Z) (M K N : nat) (X Y : ndarray) :
  has_shape M K X -> has_shape K N Y ->
  exists P, dot line X Y = Ok P /\ has_shape M N P /\
    forall i j, (i < M)%nat -> (j < N)%nat ->
      entry P i j = sumQ K (fun k => entry X i k * entry Y k j)%Q.
Proof.
  intros (HXr & HXc & _) (HYr & HYc & _). unfold dot.
  rewrite HXc, HYr, Nat.eqb_refl, HXr, HYc.
  eexists; split; [reflexivity|]. split; [apply tabulate_has_shape|].
  intros i j Hi Hj. apply entry_tabulate; assumption.
Qed.

Lemma elementwise_same_shape (line : Z) (op : Q -> Q -> Q) (M N : nat)
  (X Y : ndarray) :
  has_shape M N X -> has_shape M N Y ->
  exists P, elementwise line op X Y = Ok P /\ has_shape M N P /\
    forall i j, (i < M)%nat -> (j < N)%nat ->
      entry P i j = op (entry X i j) (entry Y i j).
Proof.
  intros (HXr & HXc & _) (HYr & HYc & _). unfold elementwise.
  rewrite HXr, HXc, HYr, HYc.
  rewrite !bcast_dim_to by (left; reflexivity).
  eexists; split; [reflexivity|]. split; [apply tabulate_has_shape|].
  intros i j Hi Hj. rewrite entry_tabulate by assumption.
  rewrite !bcast_ix_lt by assumption. reflexivity.
Qed.

Lemma weight_mul_shapes (line : Z) (M N : nat) (W : weight) (D : ndarray) :
  broadcastable M N W -> has_shape M N D ->
  exists P, weight_mul line W D = Ok P /\ has_shape M N P /\
    forall i j, (i < M)%nat -> (j < N)%nat ->
      entry P i j = (weight_at W i j * entry D i j)%Q.
Proof.
  intros HW (HDr & HDc & _). destruct W as [| w | m]; simpl in *.
  - contradiction.
  - eexists; split; [reflexivity|]. unfold scale. rewrite HDr, HDc.
    split; [apply tabulate_has_shape|].
    intros i j Hi Hj. apply entry_tabulate; assumption.
  - destruct HW as (_ & Hr & Hc). unfold elementwise.
    rewrite HDr, HDc, (bcast_dim_to M _ Hr), (bcast_dim_to N _ Hc).
    eexists; split; [reflexivity|]. split; [apply tabulate_has_shape|].
    intros i j Hi Hj. rewrite entry_tabulate by assumption.
    rewrite (bcast_ix_lt M), (bcast_ix_lt N) by assumption. reflexivity.
Qed.

Lemma T_shape (M N : nat) (X : ndarray) :
  has_shape M N X ->
  has_shape N M (T X) /\
  forall i j, (i < N)%nat -> (j < M)%nat -> entry (T X) i j = entry X j i.
Proof.
  intros (Hr & Hc & _). unfold T. rewrite Hr, Hc.
  split; [apply tabulate_has_shape|].
  intros i j Hi Hj. rewrite entry_tabulate by assumption. reflexivity.
Qed.

(** ** GradientModel *)

Lemma delta_data_entries (M K N : nat) (A S Y : ndarray) (W : weight) :
  has_shape M K A -> has_shape K N S -> has_shape M N Y ->
  broadcastable M N W ->
  exists D, delta_data A S Y W = Ok D /\ has_shape M N D /\
    forall i j, (i < M)%nat -> (j < N)%nat ->
      entry D i j = residual_at A S Y W K i j.
Proof.
  intros HA HS HY HW. unfold delta_data.
  destruct (dot_shapes 12 M K N A S HA HS) as (P & -> & HP & HPe). simpl.
  destruct (elementwise_same_shape 12 Qminus M N P Y HP HY)
    as (R & -> & HR & HRe). simpl.
  destruct (weight_mul_shapes 12 M N W R HW HR) as (D & -> & HD & HDe).
  exists D. split; [reflexivity|]. split; [exact HD|].
  intros i j Hi Hj. unfold residual_at.
  rewrite HDe, HRe, HPe by assumption. reflexivity.
Qed.

(** The residual and both gradients on conformable arguments. *)
Lemma gradient_entries (M K N : nat) (A S Y : ndarray) (W : weight) :
  has_shape M K A -> has_shape K N S -> has_shape M N Y ->
  broadcastable M N W ->
  exists D GA GS,
    delta_data A S Y W = Ok D /\
    grad_likelihood_A A S Y W = Ok GA /\
    grad_likelihood_S S A Y W = Ok GS /\
    has_shape M N D /\ has_shape M K GA /\ has_shape K N GS /\
    (forall i j, (i < M)%nat -> (j < N)%nat ->
       entry D i j =
       (weight_at W i j *
        (sumQ K (fun k => entry A i k * entry S k j) - entry Y i j))%Q) /\
    (forall i k, (i < M)%nat -> (k < K)%nat ->
       entry GA i k = sumQ N (fun j => entry D i j * entry S k j)%Q) /\
    (forall k j, (k < K)%nat -> (j < N)%nat ->
       entry GS k j = sumQ M (fun i => entry A i k * entry D i j)%Q).
Proof.
  intros HA HS HY HW.
  destruct (delta_data_entries M K N A S Y W HA HS HY HW) as (D & HD & HDs & HDe).
  destruct (T_shape K N S HS) as (HTS & HTSe).
  destruct (T_shape M K A HA) as (HTA & HTAe).
  destruct (dot_shapes 16 M N K D (T S) HDs HTS) as (GA & HGA & HGAs & HGAe).
  destruct (dot_shapes 20 K M N (T A) D HTA HDs) as (GS & HGS & HGSs & HGSe).
  exists D, GA, GS.
  unfold grad_likelihood_A, grad_likelihood_S. rewrite HD. simpl.
  repeat split; try assumption; try (destruct HDs as (? & ? & ? & ?); assumption);
    try (destruct HGAs as (? & ? & ? & ?); assumption);
    try (destruct HGSs as (? & ? & ? & ?); assumption).
  - intros i k Hi Hk. rewrite HGAe by assumption.
    apply sumQ_ext. intros j Hj. rewrite HTSe by assumption. reflexivity.
  - intros k j Hk Hj. rewrite HGSe by assumption.
    apply sumQ_ext. intros i Hi. rewrite HTAe by assumption. reflexivity.
Qed.

(** C7.  For [A] of shape MxK, [S] of shape KxN, [Y] of shape MxN and a
    weight [W] that is a number or broadcasts to MxN, none of the three
    functions fails; the residual is the MxN array with entries
    [W[i,j] * ((A.S)[i,j] - Y[i,j])]; the gradient with respect to [A] is
    the MxK array [residual . S^T]; the gradient with respect to [S] is
    the KxN array [A^T . residual].  The three are functions of their
    arguments alone: they neither take nor return controller state. *)
Theorem gradient_model_entries (M K N : nat) (A S Y : ndarray) (W : weight) :
  has_shape M K A -> has_shape K N S -> has_shape M N Y ->
  broadcastable M N W ->
  exists D GA GS,
    delta_data A S Y W = Ok D /\
    grad_likelihood_A A S Y W = Ok GA /\
    grad_likelihood_S S A Y W = Ok GS /\
    has_shape M N D /\ has_shape M K GA /\ has_shape K N GS /\
    (forall i j, (i < M)%nat -> (j < N)%nat ->
       entry D i j =
       (weight_at W i j *
        (sumQ K (fun k => entry A i k * entry S k j) - entry Y i j))%Q) /\
    (forall i k, (i < M)%nat -> (k < K)%nat ->
       entry GA i k = sumQ N (fun j => entry D i j * entry S k j)%Q) /\
    (forall k j, (k < K)%nat -> (j < N)%nat ->
       entry GS k j = sumQ M (fun i => entry A i k * entry D i j)%Q).
Proof. exact (gradient_entries M K N A S Y W). Qed.

(** ** ProxCompositor *)

Lemma scale_shape (c : Q) (M N : nat) (X : ndarray) :
  has_shape M N X ->
  has_shape M N (scale c X) /\
  forall i j, (i < M)%nat -> (j < N)%nat ->
    entry (scale c X) i j = (c * entry X i j)%Q.
Proof.
  intros (Hr & Hc & _). unfold scale. rewrite Hr, Hc.
  split; [apply tabulate_has_shape|].
  intros i j Hi Hj. rewrite entry_tabulate by assumption. reflexivity.
Qed.

(** One gradient-descent step [X - step * G] on arrays of equal shape. *)
Lemma descent_step (line : Z) (M N : nat) (X G : ndarray) (step : Q) :
  has_shape M N X -> has_shape M N G ->
  exists D, elementwise line Qminus X (scale step G) = Ok D /\
    has_shape M N D /\
    forall i j, (i < M)%nat -> (j < N)%nat ->
      entry D i j = (entry X i j - step * entry G i j)%Q.
Proof.
  intros HX HG.
  destruct (scale_shape step M N G HG) as (HsG & HsGe).
  destruct (elementwise_same_shape line Qminus M N X (scale step G) HX HsG)
    as (D & HD & HDs & HDe).
  exists D. split; [exact HD|]. split; [exact HDs|].
  intros i j Hi Hj. rewrite HDe, HsGe by assumption. reflexivity.
Qed.

Lemma prox_likelihood_A_step (M K N : nat) (A S Y : ndarray) (W : weight)
  (step : Q) (prox_g : prox) :
  has_shape M K A -> has_shape K N S -> has_shape M N Y ->
  broadcastable M N W ->
  exists G D,
    grad_likelihood_A A S Y W = Ok G /\ has_shape M K D /\
    (forall i k, (i < M)%nat -> (k < K)%nat ->
       entry D i k = (entry A i k - step * entry G i k)%Q) /\
    prox_likelihood_A A step S Y prox_g W = prox_g D step.
Proof.
  intros HA HS HY HW.
  destruct (gradient_entries M K N A S Y W HA HS HY HW)
    as (D0 & GA & GS & _ & HGA & _ & _ & HGAs & _).
  destruct (descent_step 24 M K A GA step HA HGAs) as (D & HD & HDs & HDe).
  exists GA, D. split; [exact HGA|]. split; [exact HDs|]. split; [exact HDe|].
  unfold prox_likelihood_A. rewrite HGA. simpl. rewrite HD. reflexivity.
Qed.

Lemma prox_likelihood_S_step (M K N : nat) (A S Y : ndarray) (W : weight)
  (step : Q) (prox_g : prox) :
  has_shape M K A -> has_shape K N S -> has_shape M N Y ->
  broadcastable M N W ->
  exists G D,
    grad_likelihood_S S A Y W = Ok G /\ has_shape K N D /\
    (forall k j, (k < K)%nat -> (j < N)%nat ->
       entry D k j = (entry S k j - step * entry G k j)%Q) /\
    prox_likelihood_S S step A Y prox_g W = prox_g D step.
Proof.
  intros HA HS HY HW.
  destruct (gradient_entries M K N A S Y W HA HS HY HW)
    as (D0 & GA & GS & _ & _ & HGS & _ & _ & HGSs & _).
  destruct (descent_step 27 K N S GS step HS HGSs) as (D & HD & HDs & HDe).
  exists GS, D. split; [exact HGS|]. split; [exact HDs|]. split; [exact HDe|].
  unfold prox_likelihood_S. rewrite HGS. simpl. rewrite HD. reflexivity.
Qed.

(** C6.  For every [A], [S], [Y], [W], step and projections: with
    [j = 0] the composed update is
    [prox_A(A - step * grad_likelihood_A(A, S, Y, W), step)], where [S] is
    [Xs[1]], and with [j = 1] it is
    [prox_S(S - step * grad_likelihood_S(S, A, Y, W), step)], where [A] is
    [Xs[0]] (a failure of the gradient or of the subtraction is the
    failure of the update).  On conformable arguments the array handed to
    the projection has the entries [X - step * G]; and with the identity
    projections and [W = 1],
    [prox_likelihood(A, step, Xs=[A, S], j=0, Y=Y, W=1)] returns the array
    [A - step * grad_likelihood_A(A, S, Y)]. *)
Theorem prox_likelihood_gradient_step (A S Y A0 S0 : ndarray)
  (W : weight) (step : Q) (prox_S prox_A : prox) :
  prox_likelihood A step [A0; S] (Some 0) Y W prox_S prox_A =
  res_bind (grad_likelihood_A A S Y W)
    (fun G => res_bind (elementwise 24 Qminus A (scale step G))
                (fun D => prox_A D step)) /\
  prox_likelihood S step [A; S0] (Some 1) Y W prox_S prox_A =
  res_bind (grad_likelihood_S S A Y W)
    (fun G => res_bind (elementwise 27 Qminus S (scale step G))
                (fun D => prox_S D step)) /\
  (forall M K N,
     has_shape M K A -> has_shape K N S -> has_shape M N Y ->
     broadcastable M N W ->
     (exists G D,
        grad_likelihood_A A S Y W = Ok G /\ has_shape M K D /\
        (forall i k, (i < M)%nat -> (k < K)%nat ->
           entry D i k = (entry A i k - step * entry G i k)%Q) /\
        prox_likelihood A step [A0; S] (Some 0) Y W prox_S prox_A
        = prox_A D step) /\
     (exists G D,
        grad_likelihood_S S A Y W = Ok G /\ has_shape K N D /\
        (forall k j, (k < K)%nat -> (j < N)%nat ->
           entry D k j = (entry S k j - step * entry G k j)%Q) /\
        prox_likelihood S step [A; S0] (Some 1) Y W prox_S prox_A
        = prox_S D step) /\
     (exists G D,
        grad_likelihood_A A S Y (W_scalar 1) = Ok G /\ has_shape M K D /\
        (forall i k, (i < M)%nat -> (k < K)%nat ->
           entry D i k = (entry A i k - step * entry G i k)%Q) /\
        prox_likelihood A step [A; S] (Some 0) Y (W_scalar 1) prox_id prox_id
        = Ok D)).
Proof.
  split; [reflexivity|]. split; [reflexivity|].
  intros M K N HA HS HY HW. split; [|split].
  - destruct (prox_likelihood_A_step M K N A S Y W step prox_A HA HS HY HW)
      as (G & D & HG & HDs & HDe & Hp).
    exists G, D. repeat split; try assumption; apply HDs.
  - destruct (prox_likelihood_S_step M K N A S Y W step prox_S HA HS HY HW)
      as (G & D & HG & HDs & HDe & Hp).
    exists G, D. repeat split; try assumption; apply HDs.
  - destruct (prox_likelihood_A_step M K N A S Y (W_scalar 1) step prox_id
                HA HS HY I) as (G & D & HG & HDs & HDe & Hp).
    exists G, D. repeat split; try assumption; apply HDs.
Qed.

(** C10.  [prox_likelihood] takes the A-branch (the gradient step with
    respect to [A] followed by [prox_A], with [S = Xs[1]]) when [j] is 0,
    and for every other [j], the default [None] included, the S-branch (the
    gradient step with respect to [S] followed by [prox_S], with
    [A = Xs[0]]): an index outside {0, 1} is treated exactly like 1, it is
    never rejected. *)
Theorem prox_likelihood_dispatch (X : ndarray) (step : Q) (Xs : list ndarray)
  (j : option Z) (Y : ndarray) (W : weight) (prox_S prox_A : prox) :
  (j = Some 0 ->
   prox_likelihood X step Xs j Y W prox_S prox_A =
   res_bind (getitem 32 Xs 1)
     (fun S => prox_likelihood_A X step S Y prox_A W)) /\
  (j <> Some 0 ->
   prox_likelihood X step Xs j Y W prox_S prox_A =
   res_bind (getitem 34 Xs 0)
     (fun A => prox_likelihood_S X step A Y prox_S W)) /\
  (j <> Some 0 ->
   prox_likelihood X step Xs j Y W prox_S prox_A =
   prox_likelihood X step Xs (Some 1) Y W prox_S prox_A).
Proof.
  split; [|split].
  - intros ->. reflexivity.
  - intros Hj. destruct j as [[| p | p] |]; try reflexivity. congruence.
  - intros Hj. destruct j as [[| p | p] |]; try reflexivity. congruence.
Qed.

(** ** StepSizeController *)

Import Steps_AS.

Lemma Qlt_bool_iff (a b : Q) : Qlt_bool a b = true <-> (a < b)%Q.
Proof.
  unfold Qlt_bool. rewrite negb_true_iff. split.
  - intros H. apply Qnot_le_lt. intros Hle.
    apply Qle_bool_iff in Hle. congruence.
  - intros H. destruct (Qle_bool b a) eqn:E; [|reflexivity].
    apply Qle_bool_iff in E. exfalso. exact (Qlt_not_le _ _ H E).
Qed.

Lemma Qlt_bool_false (a b : Q) : Qlt_bool a b = false <-> ~ (a < b)%Q.
Proof.
  rewrite <- Qlt_bool_iff. destruct (Qlt_bool a b); split; congruence.
Qed.

Lemma py_index_2_0 : py_index 2 0 = Some 0%nat.
Proof. reflexivity. Qed.

Lemma py_index_2_1 : py_index 2 1 = Some 1%nat.
Proof. reflexivity. Qed.

Lemma getitem_2_0 {A : Type} (line : Z) (a b : A) :
  getitem line [a; b] 0 = Ok a.
Proof. reflexivity. Qed.

Lemma getitem_2_1 {A : Type} (line : Z) (a b : A) :
  getitem line [a; b] 1 = Ok b.
Proof. reflexivity. Qed.

(** Arithmetic and comparisons stay folded while the monad is unfolded. *)
#[local] Arguments Qeq_bool : simpl never.
#[local] Arguments Qle_bool : simpl never.
#[local] Arguments Qlt_bool : simpl never.
#[local] Arguments Qabs : simpl never.
#[local] Arguments Qdiv : simpl never.
#[local] Arguments Qmult : simpl never.
#[local] Arguments Qminus : simpl never.
#[local] Arguments inject_Z : simpl never.
#[local] Arguments py_int : simpl never.
#[local] Arguments py_index : simpl never.
#[local] Arguments Z.max : simpl never.
#[local] Arguments Z.min : simpl never.
#[local] Arguments Z.add : simpl never.
#[local] Arguments Z.geb : simpl never.
#[local] Arguments Z.gtb : simpl never.
#[local] Arguments Z.eqb : simpl never.
#[local] Arguments T : simpl never.

(** Boolean tests of the code, turned into propositions. *)
Ltac bool_facts :=
  repeat match goal with
  | H : _ && _ = true |- _ => apply andb_prop in H; destruct H
  | H : _ && _ = false |- _ => apply andb_false_iff in H
  | H : (_ >=? _) = true |- _ => apply Z.geb_le in H
  | H : (_ >=? _) = false |- _ => rewrite Z.geb_leb in H; apply Z.leb_gt in H
  | H : (_ >? _) = true |- _ => rewrite Z.gtb_ltb in H; apply Z.ltb_lt in H
  | H : (_ >? _) = false |- _ => rewrite Z.gtb_ltb in H; apply Z.ltb_ge in H
  | H : (_ =? _) = true |- _ => apply Z.eqb_eq in H
  | H : (_ =? _) = false |- _ => apply Z.eqb_neq in H
  | H : Qeq_bool _ _ = true |- _ => apply Qeq_bool_eq in H
  | H : Qeq_bool _ _ = false |- _ => apply Qeq_bool_neq in H
  | H : Qlt_bool _ _ = true |- _ => apply Qlt_bool_iff in H
  | H : Qlt_bool _ _ = false |- _ => apply Qlt_bool_false in H
  end.

(** A well-formed controller, taken apart into its attributes. *)
Ltac wf_destruct s H :=
  destruct s as [sl ws wa ms ai i sd la st];
  destruct H as (Hsd & Hla & Hst); cbn in Hsd, Hla, Hst;
  destruct sd as [|d0 [|d1 [|? ?]]]; try discriminate Hsd;
  destruct la as [|l0 [|l1 [|? ?]]]; try discriminate Hla;
  destruct st as [|v0 [|v1 [|? ?]]]; try discriminate Hst;
  clear Hsd Hla Hst.

(** The monadic code of a call, unfolded in the hypothesis that names its
    outcome. *)
Ltac ctl_call_in H :=
  unfold __call__, adapt_stride, advance, lipschitz, spectral_norm in H;
  unfold bind, ret, lift, get, modify, getitem, setitem, as_number,
    truediv in H;
  cbn in H.

(** One branching point of the call on factor 0 or 1. *)
Ltac ctl_case_in H :=
  match type of H with
  | context [py_index 2 0] => rewrite py_index_2_0 in H
  | context [py_index 2 1] => rewrite py_index_2_1 in H
  | context [if ?c then _ else _] =>
      lazymatch c with
      | context [if _ then _ else _] => fail
      | context [match _ with _ => _ end] => fail
      | _ => destruct c eqn:?
      end
  | context [match ?v with Some _ => _ | None => _ end] =>
      lazymatch v with
      | context [if _ then _ else _] => fail
      | context [match _ with _ => _ end] => fail
      | _ => destruct v eqn:?
      end
  end.

Ltac absurd_leaf :=
  exfalso;
  match goal with
  | H1 : (0 < ?r)%Q, H2 : (?r == 0)%Q |- _ =>
      rewrite H2 in H1; exact (Qlt_irrefl _ H1)
  | H : forall e, Raise _ _ <> Raise e _ |- _ => eapply H; reflexivity
  | H : ?x <> ?x |- _ => apply H; reflexivity
  | H : ~ (?q == 0)%Q, H' : (?q == 0)%Q |- _ => exact (H H')
  end.

(** One path through the call, its outcome known. *)
Ltac leaf :=
  rewrite ?getitem_2_0, ?getitem_2_1;
  repeat split;
  intros;
  rewrite ?getitem_2_0, ?getitem_2_1 in *;
  try first
    [ reflexivity | assumption | discriminate | lia
    | absurd_leaf
    | match goal with
      | E : Ok _ = Ok _ |- _ => injection E as E; subst; reflexivity
      | E : Ok _ = Ok _ |- exists _, _ =>
          injection E as <-; eexists; (split; reflexivity)
      end ].

Section ControllerProperties.

Variable norm : ndarray -> Q.

Lemma lipschitz_run (j : Z) (Xs : list ndarray) (s : t) :
  exists r log, lipschitz norm j Xs s = mk_outcome r s log.
Proof.
  unfold lipschitz, spectral_norm, bind, ret, lift, get.
  destruct (j =? 0).
  - destruct (getitem 81 Xs 1); eexists; eexists; reflexivity.
  - destruct (getitem 83 Xs 0); eexists; eexists; reflexivity.
Qed.

(** One branching point of a call with an arbitrary index and arbitrary
    factors. *)
Ltac ctl_frame_case H :=
  match type of H with
  | context [lipschitz norm ?j ?Xs ?s] =>
      let r := fresh "r" in let log := fresh "log" in let E := fresh "E" in
      destruct (lipschitz_run j Xs s) as (r & log & E);
      rewrite E in H; clear E; destruct r
  | context [py_index 2 ?j] =>
      match goal with
      | E : py_index 2 j = _ |- _ => rewrite E in H
      | _ => destruct (py_index 2 j) as [[|[|?]]|] eqn:?
      end
  | context [if ?c then _ else _] =>
      lazymatch c with
      | context [if _ then _ else _] => fail
      | context [match _ with _ => _ end] => fail
      | _ => destruct c eqn:?
      end
  | context [match ?v with Some _ => _ | None => _ end] =>
      lazymatch v with
      | context [if _ then _ else _] => fail
      | context [match _ with _ => _ end] => fail
      | _ => destruct v eqn:?
      end
  end.

(** What any call leaves alone, and how far it can move the rest. *)
Lemma call_frame (s : t) (j : Z) (Xs : list ndarray) :
  wf s ->
  exists r i' sd' la' st' log,
    __call__ norm j Xs s =
    mk_outcome r
      (mk (slack s) (WSmax s) (WAmax s) (max_stride s) (advance_index s)
          i' sd' la' st') log /\
    (i' = it s \/ (i' = it s + 1 /\ j = advance_index s)) /\
    stride_step (max_stride s) (stride s) sd' /\
    length la' = 2%nat /\ length st' = 2%nat /\
    (forall k, py_index 2 j <> Some k ->
       nth k sd' 0 = nth k (stride s) 0 /\
       nth k la' 0 = nth k (last s) 0 /\
       nth k st' None = nth k (stored s) None).
Proof.
  intros H. wf_destruct s H.
  set (o := __call__ norm j Xs _).
  assert (Ho : o = __call__ norm j Xs
                     (mk sl ws wa ms ai i [d0; d1] [l0; l1] [v0; v1]))
    by reflexivity.
  clearbody o.
  unfold __call__, adapt_stride, advance in Ho.
  unfold bind, ret, lift, get, modify, getitem, setitem, as_number,
    truediv in Ho.
  cbn in Ho.
  repeat (ctl_frame_case Ho; cbn in Ho).
  all: subst o; do 6 eexists; (split; [reflexivity|]).
  all: bool_facts.
  all: split;
    [first [left; reflexivity | right; split; [reflexivity | assumption]]|].
  all: split;
    [split;
     [reflexivity
     |intros [|[|k]]; cbn;
      first [left; reflexivity
            |right; eexists; (split; [|reflexivity]); lia]]|].
  all: split; [reflexivity|]. all: split; [reflexivity|].
  all: intros [|[|k]] Hk; cbn;
    first [repeat split; reflexivity | exfalso; apply Hk; reflexivity].
Qed.

(** X17.  For a call [(j, Xs)] with [j] in {0, 1} and [Xs = [A, S]] on a
    controller [s]: the spectral norm is evaluated (a recompute happens)
    exactly when [it >= last[j] + stride[j]]; a recompute evaluates it once,
    on [S^T] for [j = 0] and on [A] for [j = 1], and sets [last[j]] to the
    [it] of the call; a call that is not due leaves [last], [stride] and
    [stored] alone; a call that returns returns [slack / stored[j]] for
    the number held by [stored[j]] after the call, and that number is
    [L = norm * WAmax] (resp. [norm * WSmax]) when the call was due. *)
Theorem call_bookkeeping (s : t) (j : Z) (A S : ndarray) :
  wf s -> j = 0 \/ j = 1 ->
  exists last_j stride_j,
    getitem 78 (last s) j = Ok last_j /\
    getitem 78 (stride s) j = Ok stride_j /\
    let o := __call__ norm j [A; S] s in
    let L := lipschitz_bound norm s j A S in
    (norm_calls o <> [] <-> last_j + stride_j <= it s) /\
    (last_j + stride_j <= it s ->
       norm_calls o = [norm_argument j A S] /\
       getitem 78 (last (state o)) j = Ok (it s) /\
       (forall step, result o = Ok step ->
          getitem 99 (stored (state o)) j = Ok (Some L))) /\
    (it s < last_j + stride_j ->
       norm_calls o = [] /\
       last (state o) = last s /\ stride (state o) = stride s /\
       stored (state o) = stored s) /\
    (forall step, result o = Ok step ->
       exists v, getitem 99 (stored (state o)) j = Ok (Some v) /\
                 step = (slack s / v)%Q).
Proof.
  intros H Hj. wf_destruct s H. unfold lipschitz_bound, norm_argument.
  destruct Hj as [-> | ->].
  - exists l0, d0.
    change (0 =? 0) with true. cbv iota.
    split; [reflexivity|]. split; [reflexivity|].
    cbv zeta. set (o := __call__ norm 0 _ _).
    assert (Ho : o = __call__ norm 0 [A; S]
                       (mk sl ws wa ms ai i [d0; d1] [l0; l1] [v0; v1]))
      by reflexivity.
    clearbody o. ctl_call_in Ho.
    change (0 =? 0) with true in Ho. cbv iota in Ho. cbn in Ho.
    repeat (ctl_case_in Ho; cbn in Ho).
    all: subst o; cbn; bool_facts; leaf.
  - exists l1, d1.
    change (1 =? 0) with false. cbv iota.
    split; [reflexivity|]. split; [reflexivity|].
    cbv zeta. set (o := __call__ norm 1 _ _).
    assert (Ho : o = __call__ norm 1 [A; S]
                       (mk sl ws wa ms ai i [d0; d1] [l0; l1] [v0; v1]))
      by reflexivity.
    clearbody o. ctl_call_in Ho.
    change (1 =? 0) with false in Ho. cbv iota in Ho. cbn in Ho.
    repeat (ctl_case_in Ho; cbn in Ho).
    all: subst o; cbn; bool_facts; leaf.
Qed.

Lemma init_state (sl : Q) (Wmax : option Q) (ms : Z)
  (uo : option (list Z)) (WA WS : option Q) (s0 : t) :
  __init__ sl Wmax ms uo WA WS = Ok s0 ->
  wf s0 /\ slack s0 = sl /\ max_stride s0 = ms /\ it s0 = 0 /\
  stride s0 = [1; 1] /\ last s0 = [-1; -1] /\ stored s0 = [None; None] /\
  (0 < sl)%Q /\ (sl <= 1)%Q.
Proof.
  unfold __init__.
  destruct (Qlt_bool 0 sl && Qle_bool sl 1) eqn:Hs; [|discriminate].
  apply andb_prop in Hs. destruct Hs as [H0 H1].
  apply Qlt_bool_iff in H0. apply Qle_bool_iff in H1.
  cbn [negb].
  destruct WA as [a|], Wmax as [w|], WS as [b|]; cbn;
    (destruct uo as [l|]; cbn; [destruct (getitem 69 l (-1)); cbn|]);
    intros E; try discriminate E; injection E as <-; cbn;
    repeat split; assumption.
Qed.

Lemma call_preserves (s : t) (j : Z) (Xs : list ndarray) :
  wf s ->
  let s' := state (__call__ norm j Xs s) in
  wf s' /\ slack s' = slack s /\ max_stride s' = max_stride s /\
  advance_index s' = advance_index s /\
  (it s' = it s \/ (it s' = it s + 1 /\ j = advance_index s)) /\
  stride_step (max_stride s) (stride s) (stride s').
Proof.
  intros H.
  destruct (call_frame s j Xs H)
    as (r & i' & sd' & la' & st' & log & E & Hi & Hsd & Hla & Hst & _).
  cbv zeta. rewrite E. cbn.
  repeat split; try assumption; try reflexivity; apply Hsd.
Qed.

(** A call with index [j] leaves the entries of every other factor alone. *)
Lemma call_other_factor (s : t) (j : Z) (Xs : list ndarray) (k : nat) :
  wf s -> py_index 2 j <> Some k ->
  let s' := state (__call__ norm j Xs s) in
  nth k (stride s') 0 = nth k (stride s) 0 /\
  nth k (last s') 0 = nth k (last s) 0 /\
  nth k (stored s') None = nth k (stored s) None.
Proof.
  intros H Hk.
  destruct (call_frame s j Xs H)
    as (r & i' & sd' & la' & st' & log & E & _ & _ & _ & _ & Hother).
  cbv zeta. rewrite E. cbn. apply Hother, Hk.
Qed.

(** Until the first call with an index for factor [k], the controller has
    [last[k] = -1], [stride[k] = 1] and nothing stored for [k]: that first
    call is due. *)
Lemma first_call_is_due (sl : Q) (Wmax : option Q) (ms : Z)
  (uo : option (list Z)) (WA WS : option Q) (s0 : t)
  (js : list (Z * list ndarray)) (k : nat) :
  __init__ sl Wmax ms uo WA WS = Ok s0 ->
  (k < 2)%nat ->
  (forall c, In c js -> py_index 2 (fst c) <> Some k) ->
  let s := calls norm s0 js in
  nth k (last s) 0 = -1 /\ nth k (stride s) 0 = 1 /\
  nth k (stored s) None = None /\
  nth k (last s) 0 + nth k (stride s) 0 <= it s.
Proof.
  intros Hinit Hk Hjs.
  destruct (init_state _ _ _ _ _ _ _ Hinit)
    as (Hw0 & _ & _ & Hit0 & Hsd0 & Hla0 & Hst0 & _).
  assert (H0 : wf s0 /\ 0 <= it s0 /\ nth k (last s0) 0 = (-1) /\
               nth k (stride s0) 0 = 1 /\ nth k (stored s0) None = None).
  { rewrite Hit0, Hsd0, Hla0, Hst0.
    destruct k as [|[|k]]; cbn; repeat split; try apply Hw0; lia. }
  clear Hinit Hit0 Hsd0 Hla0 Hst0 Hw0.
  revert s0 H0.
  induction js as [|[j Xs] js IH]; intros s0 (Hw & Hit & Hla & Hsd & Hst).
  - cbn. repeat split; try assumption. lia.
  - cbn [calls]. apply IH.
    + intros c Hc. apply Hjs. right. exact Hc.
    + destruct (call_preserves s0 j Xs Hw) as (Hw' & _ & _ & _ & Hit' & _).
      destruct (call_other_factor s0 j Xs k Hw
                  (Hjs (j, Xs) (or_introl eq_refl))) as (E1 & E2 & E3).
      split; [exact Hw'|].
      split; [destruct Hit' as [-> | [-> _]]; lia|].
      split; [congruence|]. split; congruence.
Qed.

Lemma calls_invariant (P : t -> Prop) :
  (forall s j Xs, P s -> P (state (__call__ norm j Xs s))) ->
  forall js s, P s -> P (calls norm s js).
Proof.
  intros Hstep js. induction js as [|[j Xs] js IH]; intros s Hs; cbn.
  - exact Hs.
  - apply IH, Hstep, Hs.
Qed.

Lemma calls_wf (s : t) (js : list (Z * list ndarray)) :
  wf s ->
  wf (calls norm s js) /\ slack (calls norm s js) = slack s /\
  max_stride (calls norm s js) = max_stride s /\
  advance_index (calls norm s js) = advance_index s /\
  it s <= it (calls norm s js).
Proof.
  intros H.
  apply (calls_invariant
           (fun s' => wf s' /\ slack s' = slack s /\
                      max_stride s' = max_stride s /\
                      advance_index s' = advance_index s /\ it s <= it s')).
  - intros s1 j Xs (Hw & Hsl & Hms & Hai & Hit).
    destruct (call_preserves s1 j Xs Hw) as (Hw' & Hsl' & Hms' & Hai' & Hit' & _).
    repeat split; try apply Hw'; try congruence; lia.
  - repeat split; try apply H; try reflexivity; lia.
Qed.

(** The counter after a call on factor 0 or 1. *)
Lemma call_it (s : t) (j : Z) (A S : ndarray) :
  wf s -> j = 0 \/ j = 1 ->
  it (state (__call__ norm j [A; S] s)) =
  if j =? advance_index s then it s + 1 else it s.
Proof.
  intros H Hj. wf_destruct s H.
  destruct Hj as [-> | ->].
  - set (o := __call__ norm 0 _ _).
    assert (Ho : o = __call__ norm 0 [A; S]
                       (mk sl ws wa ms ai i [d0; d1] [l0; l1] [v0; v1]))
      by reflexivity.
    clearbody o. ctl_call_in Ho.
    change (0 =? 0) with true in Ho. cbv iota in Ho. cbn in Ho.
    repeat (ctl_case_in Ho; cbn in Ho).
    all: subst o; cbn; rewrite ?Heqb0, ?Heqb; reflexivity.
  - set (o := __call__ norm 1 _ _).
    assert (Ho : o = __call__ norm 1 [A; S]
                       (mk sl ws wa ms ai i [d0; d1] [l0; l1] [v0; v1]))
      by reflexivity.
    clearbody o. ctl_call_in Ho.
    change (1 =? 0) with false in Ho. cbv iota in Ho. cbn in Ho.
    repeat (ctl_case_in Ho; cbn in Ho).
    all: subst o; cbn; rewrite ?Heqb0, ?Heqb; reflexivity.
Qed.

(** C3.  Along every sequence of calls on a constructed controller, the
    counter [it] starts at 0 and never decreases; one call raises it by at
    most 1, and only if its index [j] equals [advance_index]; a call on
    factor 0 or 1 whose index equals [advance_index] raises it by exactly
    1, whether or not that call recomputes. *)
Theorem it_monotone (sl : Q) (Wmax : option Q) (ms : Z)
  (uo : option (list Z)) (WA WS : option Q) (s0 : t)
  (js : list (Z * list ndarray)) (j : Z) (Xs : list ndarray) :
  __init__ sl Wmax ms uo WA WS = Ok s0 ->
  let s := calls norm s0 js in
  let s' := state (__call__ norm j Xs s) in
  0 <= it s /\
  it s <= it s' <= it s + 1 /\
  (it s' <> it s -> j = advance_index s0) /\
  (forall js', it s <= it (calls norm s js')) /\
  (forall A S, j = 0 \/ j = 1 -> Xs = [A; S] -> j = advance_index s0 ->
     it s' = it s + 1).
Proof.
  intros Hinit s s'.
  destruct (init_state _ _ _ _ _ _ _ Hinit) as (Hw0 & _ & _ & Hit0 & _).
  destruct (calls_wf s0 js Hw0) as (Hw & _ & _ & Hai & Hit).
  fold s in Hw, Hai, Hit.
  destruct (call_preserves s j Xs Hw) as (_ & _ & _ & _ & Hstep & _).
  fold s' in Hstep.
  split; [lia|]. split; [lia|]. split; [|split].
  - intros Hne. destruct Hstep as [? | [_ ?]]; [contradiction | congruence].
  - intros js'. apply (calls_wf s js' Hw).
  - intros A S Hj -> Heq. unfold s'.
    rewrite (call_it s j A S Hw Hj), Hai, <- Heq, Z.eqb_refl. reflexivity.
Qed.

Ltac refute :=
  exfalso;
  first
    [ contradiction | lia | absurd_leaf
    | match goal with
      | H : _ \/ _ |- _ => destruct H; bool_facts; first [contradiction | lia]
      end ].





(** A recompute that reads a stored constant equal to zero. *)
Lemma call_zero_denominator (s : t) (j : Z) (A S : ndarray)
  (l d : Z) (old : Q) :
  wf s -> j = 0 \/ j = 1 ->
  getitem 78 (last s) j = Ok l ->
  getitem 78 (stride s) j = Ok d ->
  getitem 89 (stored s) j = Ok (Some old) ->
  l + d <= it s ->
  (old == 0)%Q ->
  1 < it (state (__call__ norm j [A; S] s)) ->
  (slack s < 1)%Q ->
  result (__call__ norm j [A; S] s) = Raise ZeroDivisionError 89.
Proof.
  intros H Hj Hl Hd Hold Hdue Hz Hit Hsl.
  wf_destruct s H.
  cbn [last stride stored it slack max_stride WAmax WSmax advance_index] in *.
  destruct Hj as [-> | ->].
  - rewrite getitem_2_0 in Hl, Hd. rewrite getitem_2_0 in Hold.
    injection Hl as Hl. injection Hd as Hd. injection Hold as Hold.
    subst l d v0.
    revert Hit. set (o := __call__ norm 0 _ _).
    assert (Ho : o = __call__ norm 0 [A; S]
                       (mk sl ws wa ms ai i [d0; d1] [l0; l1] [Some old; v1]))
      by reflexivity.
    clearbody o. ctl_call_in Ho.
    change (0 =? 0) with true in Ho. cbv iota in Ho. cbn in Ho.
    repeat (ctl_case_in Ho; cbn in Ho).
    all: subst o; cbn; intros Hit; bool_facts.
    all: first [reflexivity | refute].
  - rewrite getitem_2_1 in Hl, Hd. rewrite getitem_2_1 in Hold.
    injection Hl as Hl. injection Hd as Hd. injection Hold as Hold.
    subst l d v1.
    revert Hit. set (o := __call__ norm 1 _ _).
    assert (Ho : o = __call__ norm 1 [A; S]
                       (mk sl ws wa ms ai i [d0; d1] [l0; l1] [v0; Some old]))
      by reflexivity.
    clearbody o. ctl_call_in Ho.
    change (1 =? 0) with false in Ho. cbv iota in Ho. cbn in Ho.
    repeat (ctl_case_in Ho; cbn in Ho).
    all: subst o; cbn; intros Hit; bool_facts.
    all: first [reflexivity | refute].
Qed.

(** The first call on a default controller, for factor 1. *)
Lemma first_call_state (A S : ndarray) :
  state (__call__ norm 1 [A; S]
           (mk (9 # 10) 1 1 100 1 0 [1; 1] [-1; -1] [None; None])) =
  mk (9 # 10) 1 1 100 1 1 [1; 1] [-1; 0] [None; Some (norm A * 1)%Q].
Proof.
  set (o := __call__ norm 1 _ _).
  assert (Ho : o = __call__ norm 1 [A; S]
                     (mk (9 # 10) 1 1 100 1 0 [1; 1] [-1; -1] [None; None]))
    by reflexivity.
  clearbody o. ctl_call_in Ho.
  repeat (ctl_case_in Ho; cbn in Ho).
  all: subst o.
  all: try (exfalso;
            match goal with
            | H : _ = _ |- _ => vm_compute in H; discriminate H
            end).
  all: reflexivity.
Qed.

(** C5.  The division of the relative-error computation has no guard: on
    every controller, a due recompute for factor [j] that finds [it > 1]
    and [slack < 1] while [stored[j]] holds zero evaluates
    [|stored[j] - L| / stored[j]] with a zero denominator (line 89).  Such
    a state is reachable: on a default controller, one call for factor 1
    with a factor [A] of zero spectral norm stores [L = 0] in [stored[1]],
    and the next call for factor 1 is a due recompute with [it = 2] and
    [slack = 9/10] that divides by that zero. *)
Theorem rel_error_zero_denominator :
  (forall s j A S l d old,
     wf s -> j = 0 \/ j = 1 ->
     getitem 78 (last s) j = Ok l ->
     getitem 78 (stride s) j = Ok d ->
     getitem 89 (stored s) j = Ok (Some old) ->
     l + d <= it s ->
     (old == 0)%Q ->
     1 < it (state (__call__ norm j [A; S] s)) ->
     (slack s < 1)%Q ->
     result (__call__ norm j [A; S] s) = Raise ZeroDivisionError 89) /\
  (forall A S,
     (norm A == 0)%Q ->
     exists s0 l d old,
       __init__ (9 # 10) None 100 None None None = Ok s0 /\
       let s1 := calls norm s0 [(1, [A; S])] in
       let o := __call__ norm 1 [A; S] s1 in
       getitem 78 (last s1) 1 = Ok l /\
       getitem 78 (stride s1) 1 = Ok d /\
       getitem 89 (stored s1) 1 = Ok (Some old) /\
       l + d <= it s1 /\
       (old == 0)%Q /\
       1 < it (state o) /\
       (slack s1 < 1)%Q /\
       result o = Raise ZeroDivisionError 89).
Proof.
  split.
  - intros s j A S l d old. apply call_zero_denominator.
  - intros A S HA.
    exists (mk (9 # 10) 1 1 100 1 0 [1; 1] [-1; -1] [None; None]),
      0, 1, (norm A * 1)%Q.
    split; [reflexivity|].
    cbv zeta. cbn [calls]. rewrite first_call_state.
    assert (Hw : wf (mk (9 # 10) 1 1 100 1 1 [1; 1] [-1; 0]
                       [None; Some (norm A * 1)%Q]))
      by (repeat split).
    assert (Hz : (norm A * 1 == 0)%Q) by (rewrite HA; reflexivity).
    assert (Hit : 1 < it (state (__call__ norm 1 [A; S]
                     (mk (9 # 10) 1 1 100 1 1 [1; 1] [-1; 0]
                        [None; Some (norm A * 1)%Q])))).
    { rewrite (call_it _ 1 A S Hw (or_intror eq_refl)). reflexivity. }
    assert (Hsl : (9 # 10 < 1)%Q) by reflexivity.
    split; [reflexivity|]. split; [reflexivity|]. split; [reflexivity|].
    split; [discriminate|]. split; [exact Hz|]. split; [exact Hit|].
    split; [exact Hsl|].
    apply (call_zero_denominator _ 1 A S 0 1 (norm A * 1)%Q Hw
             (or_intror eq_refl) eq_refl eq_refl eq_refl);
      [discriminate | exact Hz | exact Hit | exact Hsl].
Qed.

End ControllerProperties.

(** [l[-1]] on a non-empty list is its last element. *)
Lemma getitem_last {A : Type} (line : Z) (l : list A) :
  l <> [] -> exists x, getitem line l (-1) = Ok x.
Proof.
  intros Hl. unfold getitem, py_index.
  assert (Hn : (0 < length l)%nat)
    by (destruct l; [contradiction | cbn; lia]).
  change (0 <=? -1) with false. cbv iota. cbn [andb].
  destruct (Z.leb_spec (- Z.of_nat (length l)) (-1)) as [_ | Hc]; [|lia].
  change (-1 <? 0) with true. cbn [andb].
  destruct (nth_error l (Z.to_nat (-1 + Z.of_nat (length l)))) as [x|] eqn:E.
  - exists x. reflexivity.
  - apply nth_error_None in E. lia.
Qed.

(** C9.  [__init__] rejects every [slack] outside (0, 1] with the
    assertion of line 49, whatever the other arguments, so no controller
    exists that could return a step size; for [slack] in (0, 1] the
    assertion passes, and the controller is constructed, with [it = 0],
    strides 1, [last = -1] and nothing stored, for every [update_order]
    that is [None] or a non-empty list. *)
Theorem init_checks_slack (sl : Q) (Wmax : option Q) (ms : Z)
  (uo : option (list Z)) (WA WS : option Q) :
  (~ ((0 < sl)%Q /\ (sl <= 1)%Q) ->
   __init__ sl Wmax ms uo WA WS = Raise AssertionError 49) /\
  ((0 < sl)%Q /\ (sl <= 1)%Q ->
   __init__ sl Wmax ms uo WA WS <> Raise AssertionError 49 /\
   (uo <> Some [] ->
    exists s0,
      __init__ sl Wmax ms uo WA WS = Ok s0 /\
      slack s0 = sl /\ max_stride s0 = ms /\ it s0 = 0 /\
      stride s0 = [1; 1] /\ last s0 = [-1; -1] /\
      stored s0 = [None; None])).
Proof.
  split.
  - intros Hn. unfold __init__.
    destruct (Qlt_bool 0 sl && Qle_bool sl 1) eqn:Hs; [|reflexivity].
    exfalso. apply Hn. apply andb_prop in Hs. destruct Hs as [H0 H1].
    split; [apply Qlt_bool_iff, H0 | apply Qle_bool_iff, H1].
  - intros [H0 H1].
    assert (Hs : Qlt_bool 0 sl && Qle_bool sl 1 = true).
    { apply andb_true_intro. split;
        [apply Qlt_bool_iff, H0 | apply Qle_bool_iff, H1]. }
    unfold __init__. rewrite Hs. cbn [negb].
    split.
    + destruct WA as [a|], Wmax as [w|], WS as [b|]; cbn;
        (destruct uo as [l|]; cbn; [destruct (getitem 69 l (-1)) eqn:E; cbn|]);
        try discriminate;
        unfold getitem in E;
        destruct (py_index (length l) (-1));
        try destruct (nth_error l n); congruence.
    + intros Huo.
      assert (Hai : exists ai,
                 match uo with
                 | None => Ok 1
                 | Some l => getitem 69 l (-1)
                 end = Ok ai).
      { destruct uo as [l|]; [|exists 1; reflexivity].
        apply getitem_last. congruence. }
      destruct Hai as (ai & Hai).
      destruct WA as [a|], Wmax as [w|], WS as [b|]; cbn;
        rewrite Hai; cbn; eexists; (split; [reflexivity|]);
        repeat split.
Qed.

(** ** Driver *)

Lemma Qmaxb_ge_l (a b : Q) : (a <= Qmaxb a b)%Q.
Proof.
  unfold Qmaxb. destruct (Qle_bool a b) eqn:E.
  - apply Qle_bool_iff, E.
  - apply Qle_refl.
Qed.

Lemma Qmaxb_ge_r (a b : Q) : (b <= Qmaxb a b)%Q.
Proof.
  unfold Qmaxb. destruct (Qle_bool a b) eqn:E.
  - apply Qle_refl.
  - apply Qlt_le_weak, Qnot_le_lt. intros H.
    apply Qle_bool_iff in H. congruence.
Qed.

Lemma fold_Qmaxb_max (xs : list Q) (x : Q) :
  In (fold_left Qmaxb xs x) (x :: xs) /\
  forall y, In y (x :: xs) -> (y <= fold_left Qmaxb xs x)%Q.
Proof.
  revert x. induction xs as [|a xs IH]; intros x; cbn [fold_left].
  - split; [left; reflexivity|].
    intros y [E | []]. subst y. apply Qle_refl.
  - destruct (IH (Qmaxb x a)) as (Hin & Hge). split.
    + destruct Hin as [Hm | Hin].
      * rewrite <- Hm. unfold Qmaxb.
        destruct (Qle_bool x a); [right; left | left]; reflexivity.
      * right. right. exact Hin.
    + intros y [E | [E | Hy]].
      * subst y. apply (Qle_trans _ (Qmaxb x a)); [apply Qmaxb_ge_l|].
        apply Hge. left. reflexivity.
      * subst y. apply (Qle_trans _ (Qmaxb x a)); [apply Qmaxb_ge_r|].
        apply Hge. left. reflexivity.
      * apply Hge. right. exact Hy.
Qed.

Lemma array_max_spec (line : Z) (m : ndarray) :
  concat (rows m) <> [] ->
  exists w, array_max line m = Ok w /\
    In w (concat (rows m)) /\
    forall x, In x (concat (rows m)) -> (x <= w)%Q.
Proof.
  intros Hne. unfold array_max.
  destruct (concat (rows m)) as [|x xs]; [contradiction|].
  exists (fold_left Qmaxb xs x). split; [reflexivity|].
  apply fold_Qmaxb_max.
Qed.

Lemma init_Wmax (sl w : Q) (ms : Z) (uo : option (list Z)) (s : t) :
  __init__ sl (Some w) ms uo None None = Ok s ->
  WAmax s = w /\ WSmax s = w /\ max_stride s = ms.
Proof.
  unfold __init__.
  destruct (negb (Qlt_bool 0 sl && Qle_bool sl 1)); [discriminate|].
  cbn.
  destruct (match uo with
            | Some l => getitem 69 l (-1)
            | None => Ok 1
            end); cbn; [|discriminate].
  intros E. injection E as <-. repeat split.
Qed.

Section DriverProperties.

Variable passthrough : Type.
Variable trace : Type.
Variable bsdmm :
  list ndarray -> update_rule -> Steps_AS.t -> passthrough ->
  option (list Z) -> bool -> res (list ndarray * trace).

(** C8, amended.  If [W] is [None], [nmf] works with [W = 1] and builds
    the step controller with [Wmax = 1]; if [W] is an array with at least
    one entry, it keeps [W], takes for [Wmax] the largest entry of [W] and
    builds the controller with it; the controller built from [Wmax] has
    [WAmax = WSmax = Wmax] (and [max_stride = 100]); a [W] that is a plain
    Python number is not admitted: [W.max()] on line 146 raises
    [AttributeError] before anything is built. *)
Theorem nmf_weight_normalization (Y A0 S0 : ndarray) (W : weight)
  (prox_A prox_S : prox) (sl : Q) (uo : option (list Z)) (tb : bool)
  (rest : passthrough) :
  (W = W_None ->
   nmf passthrough trace bsdmm Y A0 S0 W prox_A prox_S sl uo tb rest =
   res_bind (__init__ sl (Some 1%Q) 100 uo None None)
     (fun steps_f =>
        nmf_run passthrough trace bsdmm Y A0 S0 (W_scalar 1) prox_A prox_S
          steps_f uo tb rest)) /\
  (forall m, W = W_array m -> concat (rows m) <> [] ->
   exists Wmax,
     In Wmax (concat (rows m)) /\
     (forall x, In x (concat (rows m)) -> (x <= Wmax)%Q) /\
     nmf passthrough trace bsdmm Y A0 S0 W prox_A prox_S sl uo tb rest =
     res_bind (__init__ sl (Some Wmax) 100 uo None None)
       (fun steps_f =>
          nmf_run passthrough trace bsdmm Y A0 S0 (W_array m) prox_A prox_S
            steps_f uo tb rest)) /\
  (forall Wmax steps_f,
     __init__ sl (Some Wmax) 100 uo None None = Ok steps_f ->
     WAmax steps_f = Wmax /\ WSmax steps_f = Wmax /\
     max_stride steps_f = 100) /\
  (forall w, W = W_scalar w ->
   nmf passthrough trace bsdmm Y A0 S0 W prox_A prox_S sl uo tb rest =
   Raise AttributeError 146).
Proof.
  split; [|split; [|split]].
  - intros ->. reflexivity.
  - intros m -> Hne.
    destruct (array_max_spec 146 m Hne) as (w & Hw & Hin & Hge).
    exists w. split; [exact Hin|]. split; [exact Hge|].
    unfold nmf, normalize_W. rewrite Hw. reflexivity.
  - intros Wmax steps_f. apply init_Wmax.
  - intros w ->. reflexivity.
Qed.

End DriverProperties.

(** ** Runs on concrete inputs *)

(** C4.  A default controller ([slack = 0.9], [advance_index = 1]) called
    for factor 1, again for factor 1 and then for factor 0, on 1x1 factors
    [[1]]: the first two calls return; the third is the first call with
    index 0, it is due ([it = 2 >= last[0] + stride[0] = 0]), and because
    [it > 1] and [slack < 1] its relative-error computation on line 89
    reads [stored[0]], which is still [None], before line 95 writes it:
    the call raises [TypeError]. *)
Theorem first_call_reads_undefined_stored :
  exists s0,
    __init__ (9 # 10) None 100 None None None = Ok s0 /\
    let Xs := ex_Xs 1 in
    let s1 := calls spectral_norm_1x1 s0 [(1, Xs)] in
    let s2 := calls spectral_norm_1x1 s0 [(1, Xs); (1, Xs)] in
    (exists step, result (__call__ spectral_norm_1x1 1 Xs s0) = Ok step) /\
    (exists step, result (__call__ spectral_norm_1x1 1 Xs s1) = Ok step) /\
    getitem 78 (last s2) 0 = Ok (-1) /\
    getitem 78 (stride s2) 0 = Ok 1 /\
    it s2 = 2 /\
    getitem 89 (stored s2) 0 = Ok None /\
    result (__call__ spectral_norm_1x1 0 Xs s2) = Raise TypeError 89.
Proof.
  exists ex_controller. split; [reflexivity|].
  cbv zeta. repeat split; try (vm_compute; reflexivity);
    vm_compute; eexists; reflexivity.
Qed.

(** C1.  A default controller ([slack = 0.9], [advance_index = 1]) called
    for factor 1 twice and then for factor 0 with [Xs = [[2], [3]]]: the
    third call is due ([it = 2 >= last[0] + stride[0] = 0]) and does
    recompute, evaluating the spectral norm once, on [S^T], and setting
    [last[0]] to 2; but line 89 then raises [TypeError] on the [None] held
    by [stored[0]], so the call does not store [L] in [stored[0]] (it is
    still [None] after the call) and returns no step size. *)
Theorem due_recompute_neither_stores_nor_returns :
  exists s0,
    __init__ (9 # 10) None 100 None None None = Ok s0 /\
    let A := array_1x1 2 in
    let S := array_1x1 3 in
    let s2 := calls spectral_norm_1x1 s0 [(1, [A; S]); (1, [A; S])] in
    let o := __call__ spectral_norm_1x1 0 [A; S] s2 in
    (exists last_j stride_j,
       getitem 78 (last s2) 0 = Ok last_j /\
       getitem 78 (stride s2) 0 = Ok stride_j /\
       last_j + stride_j <= it s2) /\
    it s2 = 2 /\
    norm_calls o = [T S] /\
    getitem 78 (last (state o)) 0 = Ok 2 /\
    getitem 95 (stored (state o)) 0 = Ok None /\
    result o = Raise TypeError 89 /\
    (forall step, result o <> Ok step).
Proof.
  exists ex_controller. split; [reflexivity|].
  cbv zeta.
  set (s2 := calls spectral_norm_1x1 _ _). vm_compute in s2. subst s2.
  set (o := __call__ spectral_norm_1x1 0 _ _). vm_compute in o. subst o.
  cbn [result state norm_calls last stored stride it].
  split.
  { exists (-1), 1. repeat split; [discriminate]. }
  repeat split; intros step E; discriminate E.
Qed.

(** The stride of factor 1 grows from 1 to 5 when the bound moves from 16
    to 17 under [slack = 1/2]: [rel_error = 1/16], [budget = 1/4], so the
    stride gains [max(1, int(4 * 1)) = 4]. *)
Example stride_grows_to_5 :
  nth 1 (stride (calls spectral_norm_1x1 ex_controller_half
                   [(1, ex_Xs 16); (1, ex_Xs 17)])) 0 = 5.
Proof. vm_compute. reflexivity. Qed.


(** C8 as stated fails: a plain number for [W] is rejected on line 146. *)
Lemma nmf_rejects_scalar_W :
  nmf unit unit bsdmm_stub ex_Y ex_A ex_S (W_scalar 2) prox_plus prox_plus
    (9 # 10) None false tt
  = Raise AttributeError 146.
Proof. reflexivity. Qed.

Lemma ex_shapes :
  has_shape 2 2 ex_A /\ has_shape 2 2 ex_S /\ has_shape 2 2 ex_Y.
Proof.
  unfold has_shape, well_shaped. cbn. repeat split; repeat constructor.
Defined.

Lemma call_bookkeeping_witness :
  wf ex_controller /\ (1 = 0 \/ 1 = 1) /\
  exists last_j stride_j,
    getitem 78 (last ex_controller) 1 = Ok last_j /\
    getitem 78 (stride ex_controller) 1 = Ok stride_j /\
    let o := __call__ spectral_norm_1x1 1 (ex_Xs 2) ex_controller in
    let L := lipschitz_bound spectral_norm_1x1 ex_controller 1
               (array_1x1 2) (array_1x1 2) in
    (norm_calls o <> [] <-> last_j + stride_j <= it ex_controller) /\
    (last_j + stride_j <= it ex_controller ->
       norm_calls o = [norm_argument 1 (array_1x1 2) (array_1x1 2)] /\
       getitem 78 (last (state o)) 1 = Ok (it ex_controller) /\
       (forall step, result o = Ok step ->
          getitem 99 (stored (state o)) 1 = Ok (Some L))) /\
    (it ex_controller < last_j + stride_j ->
       norm_calls o = [] /\
       last (state o) = last ex_controller /\
       stride (state o) = stride ex_controller /\
       stored (state o) = stored ex_controller) /\
    (forall step, result o = Ok step ->
       exists v, getitem 99 (stored (state o)) 1 = Ok (Some v) /\
                 step = (slack ex_controller / v)%Q).
Proof.
  split; [repeat split|]. split; [right; reflexivity|].
  apply (call_bookkeeping spectral_norm_1x1 ex_controller 1
           (array_1x1 2) (array_1x1 2)).
  - repeat split.
  - right. reflexivity.
Defined.

Lemma it_monotone_witness :
  __init__ (9 # 10) None 100 None None None = Ok ex_controller /\
  let s := calls spectral_norm_1x1 ex_controller [(0, ex_Xs 1)] in
  let s' := state (__call__ spectral_norm_1x1 1 (ex_Xs 1) s) in
  0 <= it s /\
  it s <= it s' <= it s + 1 /\
  (it s' <> it s -> 1 = advance_index ex_controller) /\
  (forall js', it s <= it (calls spectral_norm_1x1 s js')) /\
  (forall A S, 1 = 0 \/ 1 = 1 -> ex_Xs 1 = [A; S] ->
     1 = advance_index ex_controller -> it s' = it s + 1).
Proof.
  split; [reflexivity|].
  apply (it_monotone spectral_norm_1x1 (9 # 10) None 100 None None None
           ex_controller [(0, ex_Xs 1)] 1 (ex_Xs 1)).
  reflexivity.
Defined.


Lemma rel_error_zero_denominator_witness :
  (spectral_norm_1x1 (array_1x1 0) == 0)%Q /\
  exists s0 l d old,
    __init__ (9 # 10) None 100 None None None = Ok s0 /\
    let s1 := calls spectral_norm_1x1 s0 [(1, ex_Xs 0)] in
    let o := __call__ spectral_norm_1x1 1 (ex_Xs 0) s1 in
    getitem 78 (last s1) 1 = Ok l /\
    getitem 78 (stride s1) 1 = Ok d /\
    getitem 89 (stored s1) 1 = Ok (Some old) /\
    l + d <= it s1 /\
    (old == 0)%Q /\
    1 < it (state o) /\
    (slack s1 < 1)%Q /\
    result o = Raise ZeroDivisionError 89.
Proof.
  split; [reflexivity|].
  apply (proj2 (rel_error_zero_denominator spectral_norm_1x1)
           (array_1x1 0) (array_1x1 0)).
  reflexivity.
Defined.

Lemma gradient_model_entries_witness :
  has_shape 2 2 ex_A /\ has_shape 2 2 ex_S /\ has_shape 2 2 ex_Y /\
  broadcastable 2 2 (W_scalar 1) /\
  exists D GA GS,
    delta_data ex_A ex_S ex_Y (W_scalar 1) = Ok D /\
    grad_likelihood_A ex_A ex_S ex_Y (W_scalar 1) = Ok GA /\
    grad_likelihood_S ex_S ex_A ex_Y (W_scalar 1) = Ok GS /\
    has_shape 2 2 D /\ has_shape 2 2 GA /\ has_shape 2 2 GS /\
    (forall i j, (i < 2)%nat -> (j < 2)%nat ->
       entry D i j =
       (weight_at (W_scalar 1) i j *
        (sumQ 2 (fun k => entry ex_A i k * entry ex_S k j) - entry ex_Y i j))%Q) /\
    (forall i k, (i < 2)%nat -> (k < 2)%nat ->
       entry GA i k = sumQ 2 (fun j => entry D i j * entry ex_S k j)%Q) /\
    (forall k j, (k < 2)%nat -> (j < 2)%nat ->
       entry GS k j = sumQ 2 (fun i => entry ex_A i k * entry D i j)%Q).
Proof.
  destruct ex_shapes as (HA & HS & HY).
  split; [exact HA|]. split; [exact HS|]. split; [exact HY|]. split; [exact I|].
  apply (gradient_model_entries 2 2 2 ex_A ex_S ex_Y (W_scalar 1) HA HS HY I).
Defined.

Lemma prox_likelihood_gradient_step_witness :
  has_shape 2 2 ex_A /\ has_shape 2 2 ex_S /\ has_shape 2 2 ex_Y /\
  broadcastable 2 2 (W_scalar 1) /\
  exists G D,
    grad_likelihood_A ex_A ex_S ex_Y (W_scalar 1) = Ok G /\
    has_shape 2 2 D /\
    (forall i k, (i < 2)%nat -> (k < 2)%nat ->
       entry D i k = (entry ex_A i k - (1 # 10) * entry G i k)%Q) /\
    prox_likelihood ex_A (1 # 10) [ex_A; ex_S] (Some 0) ex_Y (W_scalar 1)
      prox_id prox_id
    = Ok D.
Proof.
  destruct ex_shapes as (HA & HS & HY).
  split; [exact HA|]. split; [exact HS|]. split; [exact HY|]. split; [exact I|].
  apply (proj2 (proj2
           (proj2 (proj2
              (prox_likelihood_gradient_step ex_A ex_S ex_Y ex_A ex_S
                 (W_scalar 1) (1 # 10) prox_id prox_id))
              2%nat 2%nat 2%nat HA HS HY I))).
Defined.

Lemma prox_likelihood_dispatch_witness :
  (None : option Z) <> Some 0 /\
  prox_likelihood ex_S (1 # 10) [ex_A; ex_S] None ex_Y (W_scalar 1)
    prox_plus prox_plus
  = prox_likelihood ex_S (1 # 10) [ex_A; ex_S] (Some 1) ex_Y (W_scalar 1)
      prox_plus prox_plus.
Proof.
  split; [discriminate|].
  apply (proj2 (proj2
           (prox_likelihood_dispatch ex_S (1 # 10) [ex_A; ex_S] None ex_Y
              (W_scalar 1) prox_plus prox_plus))).
  discriminate.
Defined.

Lemma init_checks_slack_witness :
  (~ ((0 < 2)%Q /\ (2 <= 1)%Q) /\
   __init__ 2 None 100 None None None = Raise AssertionError 49) /\
  (((0 < 9 # 10)%Q /\ (9 # 10 <= 1)%Q) /\
   (None : option (list Z)) <> Some [] /\
   exists s0,
     __init__ (9 # 10) None 100 None None None = Ok s0 /\
     slack s0 = 9 # 10 /\ max_stride s0 = 100 /\ it s0 = 0 /\
     stride s0 = [1; 1] /\ last s0 = [-1; -1] /\
     stored s0 = [None; None]).
Proof.
  assert (H2 : ~ ((0 < 2)%Q /\ (2 <= 1)%Q)).
  { intros [_ H]. apply H. reflexivity. }
  assert (H9 : (0 < 9 # 10)%Q /\ (9 # 10 <= 1)%Q).
  { split; [reflexivity | discriminate]. }
  split.
  - split; [exact H2|].
    apply (proj1 (init_checks_slack 2 None 100 None None None) H2).
  - split; [exact H9|]. split; [discriminate|].
    apply (proj2 (proj2 (init_checks_slack (9 # 10) None 100 None None None)
                    H9)).
    discriminate.
Defined.

Lemma nmf_weight_normalization_witness :
  W_array ex_Y = W_array ex_Y /\ concat (rows ex_Y) <> [] /\
  exists Wmax,
    In Wmax (concat (rows ex_Y)) /\
    (forall x, In x (concat (rows ex_Y)) -> (x <= Wmax)%Q) /\
    nmf unit unit bsdmm_stub ex_Y ex_A ex_S (W_array ex_Y) prox_plus
      prox_plus (9 # 10) None false tt =
    res_bind (__init__ (9 # 10) (Some Wmax) 100 None None None)
      (fun steps_f =>
         nmf_run unit unit bsdmm_stub ex_Y ex_A ex_S (W_array ex_Y)
           prox_plus prox_plus steps_f None false tt).
Proof.
  split; [reflexivity|]. split; [discriminate|].
  apply (proj1 (proj2
           (nmf_weight_normalization unit unit bsdmm_stub ex_Y ex_A ex_S
              (W_array ex_Y) prox_plus prox_plus (9 # 10) None false tt))
           ex_Y eq_refl).
  discriminate.
Defined.

(** * Further properties *)

(** ** GradientModel and ProxCompositor: failures *)

(** X1.  When the inner dimensions of [A] and [S] disagree, [A.dot(S)]
    fails on line 12: the residual, both gradients and both branches of
    the composed update raise that [ValueError], and no projection is
    applied. *)
Theorem inner_dimension_mismatch (A S Y A0 S0 : ndarray) (W : weight)
  (step : Q) (prox_S prox_A : prox) :
  ncols A <> nrows S ->
  delta_data A S Y W = Raise ValueError 12 /\
  grad_likelihood_A A S Y W = Raise ValueError 12 /\
  grad_likelihood_S S A Y W = Raise ValueError 12 /\
  prox_likelihood A step [A0; S] (Some 0) Y W prox_S prox_A
  = Raise ValueError 12 /\
  prox_likelihood S step [A; S0] (Some 1) Y W prox_S prox_A
  = Raise ValueError 12.
Proof.
  intros Hne.
  assert (HD : delta_data A S Y W = Raise ValueError 12).
  { unfold delta_data, dot.
    destruct (Nat.eqb_spec (ncols A) (nrows S)); [contradiction | reflexivity]. }
  split; [exact HD|].
  unfold grad_likelihood_A, grad_likelihood_S.
  cbn [prox_likelihood getitem py_index].
  repeat split;
    unfold prox_likelihood_A, prox_likelihood_S, grad_likelihood_A,
      grad_likelihood_S;
    try rewrite !getitem_2_0; try rewrite !getitem_2_1;
    cbn [res_bind]; rewrite HD; reflexivity.
Qed.

(** X2.  The default [W = None] of [prox_likelihood] cannot be multiplied:
    on conformable factors the residual, and with it the composed update
    for either factor, raises [TypeError] on line 12. *)
Theorem weight_none_raises (M K N : nat) (A S Y A0 S0 : ndarray)
  (step : Q) (prox_S prox_A : prox) :
  has_shape M K A -> has_shape K N S -> has_shape M N Y ->
  delta_data A S Y W_None = Raise TypeError 12 /\
  prox_likelihood A step [A0; S] (Some 0) Y W_None prox_S prox_A
  = Raise TypeError 12 /\
  prox_likelihood S step [A; S0] None Y W_None prox_S prox_A
  = Raise TypeError 12.
Proof.
  intros HA HS HY.
  assert (HD : delta_data A S Y W_None = Raise TypeError 12).
  { unfold delta_data.
    destruct (dot_shapes 12 M K N A S HA HS) as (P & -> & HP & _).
    cbn [res_bind].
    destruct (elementwise_same_shape 12 Qminus M N P Y HP HY)
      as (R & -> & _). reflexivity. }
  split; [exact HD|].
  split.
  - unfold prox_likelihood. rewrite getitem_2_1. cbn [res_bind].
    unfold prox_likelihood_A, grad_likelihood_A. rewrite HD. reflexivity.
  - unfold prox_likelihood. rewrite getitem_2_0. cbn [res_bind].
    unfold prox_likelihood_S, grad_likelihood_S. rewrite HD. reflexivity.
Qed.

(** ** GradientModel: algebra *)

Lemma sumQ_Qeq (n : nat) (f g : nat -> Q) :
  (forall k, (k < n)%nat -> (f k == g k)%Q) -> (sumQ n f == sumQ n g)%Q.
Proof.
  induction n as [|n IH]; intros H; simpl.
  - reflexivity.
  - rewrite IH, (H n) by (intros; try apply H; lia). reflexivity.
Qed.

Lemma sumQ_zero (n : nat) (f : nat -> Q) :
  (forall k, (k < n)%nat -> (f k == 0)%Q) -> (sumQ n f == 0)%Q.
Proof.
  induction n as [|n IH]; intros H; simpl.
  - reflexivity.
  - rewrite IH, (H n) by (intros; try apply H; lia). reflexivity.
Qed.

(** X3.  An exact factorization is a stationary point: when [A.S] equals
    [Y] entry by entry, both gradients are arrays of zeros, whatever the
    weights, and the composed update with the identity projection returns
    the factor it was given, for every step size. *)
Theorem exact_factorization_stationary (M K N : nat) (A S Y : ndarray)
  (W : weight) (step : Q) :
  has_shape M K A -> has_shape K N S -> has_shape M N Y ->
  broadcastable M N W ->
  (forall i j, (i < M)%nat -> (j < N)%nat ->
     (sumQ K (fun k => entry A i k * entry S k j) == entry Y i j)%Q) ->
  exists GA GS A' S',
    grad_likelihood_A A S Y W = Ok GA /\
    grad_likelihood_S S A Y W = Ok GS /\
    (forall i k, (i < M)%nat -> (k < K)%nat -> (entry GA i k == 0)%Q) /\
    (forall k j, (k < K)%nat -> (j < N)%nat -> (entry GS k j == 0)%Q) /\
    prox_likelihood A step [A; S] (Some 0) Y W prox_id prox_id = Ok A' /\
    prox_likelihood S step [A; S] (Some 1) Y W prox_id prox_id = Ok S' /\
    has_shape M K A' /\ has_shape K N S' /\
    (forall i k, (i < M)%nat -> (k < K)%nat ->
       (entry A' i k == entry A i k)%Q) /\
    (forall k j, (k < K)%nat -> (j < N)%nat ->
       (entry S' k j == entry S k j)%Q).
Proof.
  intros HA HS HY HW Hexact.
  destruct (gradient_entries M K N A S Y W HA HS HY HW)
    as (D & GA & GS & _ & HGA & HGS & _ & _ & _ & HDe & HGAe & HGSe).
  assert (HD0 : forall i j, (i < M)%nat -> (j < N)%nat -> (entry D i j == 0)%Q).
  { intros i j Hi Hj. rewrite HDe, (Hexact i j Hi Hj) by assumption. ring. }
  assert (HGA0 : forall i k, (i < M)%nat -> (k < K)%nat ->
                   (entry GA i k == 0)%Q).
  { intros i k Hi Hk. rewrite HGAe by assumption.
    apply sumQ_zero. intros j Hj. rewrite (HD0 i j Hi Hj). ring. }
  assert (HGS0 : forall k j, (k < K)%nat -> (j < N)%nat ->
                   (entry GS k j == 0)%Q).
  { intros k j Hk Hj. rewrite HGSe by assumption.
    apply sumQ_zero. intros i Hi. rewrite (HD0 i j Hi Hj). ring. }
  destruct (prox_likelihood_A_step M K N A S Y W step prox_id HA HS HY HW)
    as (G1 & A' & HG1 & HA's & HA'e & HpA).
  destruct (prox_likelihood_S_step M K N A S Y W step prox_id HA HS HY HW)
    as (G2 & S' & HG2 & HS's & HS'e & HpS).
  rewrite HGA in HG1. injection HG1 as E1. subst G1.
  rewrite HGS in HG2. injection HG2 as E2. subst G2.
  exists GA, GS, A', S'.
  split; [exact HGA|]. split; [exact HGS|].
  split; [exact HGA0|]. split; [exact HGS0|].
  split. { unfold prox_likelihood. rewrite getitem_2_1. exact HpA. }
  split. { unfold prox_likelihood. rewrite getitem_2_0. exact HpS. }
  split; [exact HA's|]. split; [exact HS's|]. split.
  - intros i k Hi Hk. rewrite HA'e, (HGA0 i k Hi Hk) by assumption. ring.
  - intros k j Hk Hj. rewrite HS'e, (HGS0 k j Hk Hj) by assumption. ring.
Qed.

(** X4.  The two gradients are transposes of one another: for a scalar
    weight, the gradient with respect to [S] is the transpose of the
    gradient with respect to the first factor of the transposed problem
    [Y^T = S^T . A^T]. *)
Theorem gradient_transpose_duality (M K N : nat) (A S Y : ndarray) (w : Q) :
  has_shape M K A -> has_shape K N S -> has_shape M N Y ->
  exists GS GA',
    grad_likelihood_S S A Y (W_scalar w) = Ok GS /\
    grad_likelihood_A (T S) (T A) (T Y) (W_scalar w) = Ok GA' /\
    has_shape K N GS /\ has_shape N K GA' /\
    forall k j, (k < K)%nat -> (j < N)%nat ->
      (entry GS k j == entry GA' j k)%Q.
Proof.
  intros HA HS HY.
  destruct (T_shape M K A HA) as (HTA & HTAe).
  destruct (T_shape K N S HS) as (HTS & HTSe).
  destruct (T_shape M N Y HY) as (HTY & HTYe).
  destruct (gradient_entries M K N A S Y (W_scalar w) HA HS HY I)
    as (D & _ & GS & _ & _ & HGS & _ & _ & HGSs & HDe & _ & HGSe).
  destruct (gradient_entries N K M (T S) (T A) (T Y) (W_scalar w) HTS HTA HTY I)
    as (D' & GA' & _ & _ & HGA' & _ & _ & HGA's & _ & HD'e & HGA'e & _).
  exists GS, GA'.
  split; [exact HGS|]. split; [exact HGA'|].
  split; [exact HGSs|]. split; [exact HGA's|].
  intros k j Hk Hj.
  rewrite HGSe, HGA'e by assumption.
  apply sumQ_Qeq. intros i Hi.
  rewrite HDe, HD'e by assumption.
  rewrite (HTAe k i Hk Hi), (HTYe j i Hj Hi).
  cbn [weight_at].
  assert (E : (sumQ K (fun k0 => entry (T S) j k0 * entry (T A) k0 i)
               == sumQ K (fun k0 => entry A i k0 * entry S k0 j))%Q).
  { apply sumQ_Qeq. intros k0 Hk0.
    rewrite (HTSe j k0 Hj Hk0), (HTAe k0 i Hk0 Hi). ring. }
  rewrite E. ring.
Qed.

(** ** StepSizeController: construction *)

Lemma getitem_minus1 {A : Type} (line : Z) (l : list A) (d : A) :
  l <> [] -> getitem line l (-1) = Ok (List.last l d).
Proof.
  intros Hl.
  destruct (exists_last Hl) as (l' & x & ->).
  rewrite last_last.
  unfold getitem, py_index. rewrite length_app. cbn [length].
  change (0 <=? -1) with false. cbn [andb].
  destruct (Z.leb_spec (- Z.of_nat (length l' + 1)) (-1)) as [_ | Hc]; [|lia].
  change (-1 <? 0) with true. cbn [andb].
  replace (Z.to_nat (-1 + Z.of_nat (length l' + 1))) with (length l') by lia.
  rewrite nth_error_app2 by lia. rewrite Nat.sub_diag. reflexivity.
Qed.

(** X5.  What a constructed controller holds: [WAmax] is the argument
    [WAmax] if given, else [Wmax] if given, else 1, and likewise [WSmax];
    [advance_index] is the last entry of [update_order], or 1 when
    [update_order] is [None]. *)
Theorem init_attributes (sl : Q) (Wmax : option Q) (ms : Z)
  (uo : option (list Z)) (WA WS : option Q) (s : t) :
  __init__ sl Wmax ms uo WA WS = Ok s ->
  WAmax s = match WA, Wmax with
            | Some a, _ => a
            | None, Some w => w
            | None, None => 1%Q
            end /\
  WSmax s = match WS, Wmax with
            | Some b, _ => b
            | None, Some w => w
            | None, None => 1%Q
            end /\
  advance_index s = match uo with
                    | None => 1
                    | Some l => List.last l 1
                    end /\
  uo <> Some [].
Proof.
  unfold __init__.
  destruct (negb (Qlt_bool 0 sl && Qle_bool sl 1)); [discriminate|].
  destruct uo as [[|x l]|].
  - destruct WA, Wmax, WS; discriminate.
  - rewrite (getitem_minus1 69 (x :: l) 1) by discriminate.
    destruct WA, Wmax, WS; cbn [res_bind]; intros E; injection E as <-;
      cbn [WAmax WSmax advance_index]; repeat split; discriminate.
  - destruct WA, Wmax, WS; cbn [res_bind]; intros E; injection E as <-;
      cbn [WAmax WSmax advance_index]; repeat split; discriminate.
Qed.

(** X6.  An empty [update_order] is rejected: with [slack] in (0, 1] the
    assertion passes and [update_order[-1]] on line 69 raises
    [IndexError], whatever the other arguments. *)
Theorem init_empty_update_order (sl : Q) (Wmax : option Q) (ms : Z)
  (WA WS : option Q) :
  (0 < sl)%Q -> (sl <= 1)%Q ->
  __init__ sl Wmax ms (Some []) WA WS = Raise IndexError 69.
Proof.
  intros H0 H1. unfold __init__.
  assert (Hs : Qlt_bool 0 sl && Qle_bool sl 1 = true).
  { apply andb_true_intro. split;
      [apply Qlt_bool_iff, H0 | apply Qle_bool_iff, H1]. }
  rewrite Hs. destruct WA, Wmax, WS; reflexivity.
Qed.

(** ** StepSizeController: calls *)

Section ControllerExtras.

Variable norm : ndarray -> Q.

Lemma getitem_raises {A : Type} (line : Z) (l : list A) (j : Z)
  (e : exn) (n : Z) :
  getitem line l j = Raise e n -> e = IndexError /\ n = line.
Proof.
  unfold getitem. destruct (py_index (length l) j) as [i|].
  - destruct (nth_error l i); intros E; [discriminate|].
    injection E as <- <-. split; reflexivity.
  - intros E. injection E as <- <-. split; reflexivity.
Qed.

(** The bound of lines 80-83 fails only when [Xs] lacks the factor. *)
Lemma lipschitz_outcome (j : Z) (Xs : list ndarray) (s : t) :
  exists r log,
    lipschitz norm j Xs s = mk_outcome r s log /\
    ((exists L, r = Ok L) \/ r = Raise IndexError 81 \/
     r = Raise IndexError 83).
Proof.
  unfold lipschitz, spectral_norm, bind, ret, lift, get.
  destruct (j =? 0).
  - destruct (getitem 81 Xs 1) as [S|e n] eqn:E.
    + eexists; eexists; split; [reflexivity|]. left. eexists. reflexivity.
    + destruct (getitem_raises _ _ _ _ _ E) as (-> & ->).
      eexists; eexists; split; [reflexivity|]. right. left. reflexivity.
  - destruct (getitem 83 Xs 0) as [A|e n] eqn:E.
    + eexists; eexists; split; [reflexivity|]. left. eexists. reflexivity.
    + destruct (getitem_raises _ _ _ _ _ E) as (-> & ->).
      eexists; eexists; split; [reflexivity|]. right. right. reflexivity.
Qed.

(** One branching point of a call, whatever its index and factors. *)
Ltac ctl_any_case H :=
  match type of H with
  | context [lipschitz norm ?j ?Xs ?s] =>
      let r := fresh "r" in let log := fresh "log" in let E := fresh "E" in
      let Hr := fresh "Hr" in let L := fresh "L" in
      destruct (lipschitz_outcome j Xs s) as (r & log & E & Hr);
      rewrite E in H; clear E;
      destruct Hr as [(L & ->) | [-> | ->]]
  | context [py_index 2 ?j] =>
      match goal with
      | E : py_index 2 j = _ |- _ => rewrite E in H
      | _ => destruct (py_index 2 j) as [[|[|?]]|] eqn:?
      end
  | context [if ?c then _ else _] =>
      lazymatch c with
      | context [if _ then _ else _] => fail
      | context [match _ with _ => _ end] => fail
      | _ => destruct c eqn:?
      end
  | context [match ?v with Some _ => _ | None => _ end] =>
      lazymatch v with
      | context [if _ then _ else _] => fail
      | context [match _ with _ => _ end] => fail
      | _ => destruct v eqn:?
      end
  end.

(** A path the hypotheses exclude. *)
Ltac refute_leaf :=
  exfalso;
  first
    [ contradiction | lia | absurd_leaf
    | match goal with
      | H : _ \/ _ |- _ =>
          destruct H; bool_facts; first [contradiction | lia | absurd_leaf]
      end ].

(** The call unfolded up to its three blocks. *)
Ltac ctl_blocks_in H :=
  unfold __call__, adapt_stride, advance in H;
  unfold bind, ret, lift, get, modify, getitem, setitem, as_number,
    truediv in H;
  cbn in H.

Lemma py_index_2_out (j : Z) : j < -2 \/ 2 <= j -> py_index 2 j = None.
Proof.
  intros Hj. unfold py_index.
  destruct (Z.leb_spec 0 j), (Z.ltb_spec j (Z.of_nat 2)),
    (Z.leb_spec (- Z.of_nat 2) j), (Z.ltb_spec j 0); cbn; try reflexivity; lia.
Qed.

(** X7.  A factor index outside -2..1 is refused on line 78 with
    [IndexError]: nothing is computed and the controller is unchanged. *)
Theorem call_index_out_of_range (s : t) (j : Z) (Xs : list ndarray) :
  wf s -> j < -2 \/ 2 <= j ->
  __call__ norm j Xs s = mk_outcome (Raise IndexError 78) s [].
Proof.
  intros H Hj. wf_destruct s H.
  unfold __call__, bind, get, lift, getitem. cbn [length last stride].
  rewrite (py_index_2_out j Hj). reflexivity.
Qed.

(** With [slack = 1] a call leaves the strides alone and never reaches the
    relative-error computation. *)
Lemma call_slack_one (s : t) (j : Z) (Xs : list ndarray) :
  wf s -> ~ (slack s < 1)%Q ->
  stride (state (__call__ norm j Xs s)) = stride s /\
  forall e, result (__call__ norm j Xs s) <> Raise e 89.
Proof.
  intros H Hsl. wf_destruct s H. cbn [slack stride] in *.
  set (o := __call__ norm j Xs _).
  assert (Ho : o = __call__ norm j Xs
                     (mk sl ws wa ms ai i [d0; d1] [l0; l1] [v0; v1]))
    by reflexivity.
  clearbody o. ctl_blocks_in Ho.
  repeat (ctl_any_case Ho; cbn in Ho).
  all: subst o; cbn; bool_facts.
  all: first [split; [reflexivity | intros e; discriminate] | refute_leaf].
Qed.

(** X8.  With [slack = 1] the stride adaptation is switched off: along
    every sequence of calls the strides keep their values (1 for a
    constructed controller) and no call fails in the relative-error
    computation of line 89. *)
Theorem slack_one_never_adapts (s : t) (js : list (Z * list ndarray)) :
  wf s -> ~ (slack s < 1)%Q ->
  stride (calls norm s js) = stride s /\
  Forall (fun r => forall e, r <> Raise e 89) (results norm s js).
Proof.
  revert s. induction js as [|[j Xs] js IH]; intros s Hw Hsl.
  - split; [reflexivity | constructor].
  - cbn [calls results].
    destruct (call_slack_one s j Xs Hw Hsl) as (Hst & Hne).
    destruct (call_preserves norm s j Xs Hw) as (Hw' & Hsl' & _).
    cbv zeta in Hw', Hsl'.
    destruct (IH (state (__call__ norm j Xs s)) Hw') as (IH1 & IH2).
    { rewrite Hsl'. exact Hsl. }
    split; [congruence|]. constructor; assumption.
Qed.

(** X9.  A stride that has reached [max_stride] stays there, whatever is
    called afterwards. *)
Theorem saturated_stride_stays (s : t) (js : list (Z * list ndarray))
  (k : nat) :
  wf s -> nth k (stride s) 0 = max_stride s ->
  nth k (stride (calls norm s js)) 0 = max_stride s.
Proof.
  intros Hw Hk.
  apply (calls_invariant norm
           (fun s' => wf s' /\ max_stride s' = max_stride s /\
                      nth k (stride s') 0 = max_stride s));
    [|repeat split; try apply Hw; assumption].
  intros s1 j Xs (Hw1 & Hms & Hk1).
  destruct (call_preserves norm s1 j Xs Hw1)
    as (Hw' & _ & Hms' & _ & _ & _ & Hst).
  split; [exact Hw'|]. split; [congruence|].
  destruct (Hst k) as [E | (g & Hg & E)]; rewrite E; lia.
Qed.

(** X10.  The counter counts the calls that close an outer iteration:
    after any sequence of calls on factor 0 or 1 with both factors
    supplied, [it] has grown by the number of calls whose index equals
    [advance_index], whether those calls recomputed, reused or failed. *)
Theorem it_counts_advances (s : t) (js : list (Z * list ndarray)) :
  wf s ->
  Forall (fun c => (fst c = 0 \/ fst c = 1) /\
                   exists A S, snd c = [A; S]) js ->
  it (calls norm s js) =
  it s + Z.of_nat (length (filter (fun c => fst c =? advance_index s) js)).
Proof.
  revert s. induction js as [|[j Xs] js IH]; intros s Hw Hjs.
  - cbn. lia.
  - inversion Hjs as [|c cs (Hj & A & S & HXs) Hrest]; subst.
    cbn [fst snd] in Hj, HXs. subst Xs.
    cbn [calls filter fst].
    destruct (call_preserves norm s j [A; S] Hw) as (Hw' & _ & _ & Hai & _).
    cbv zeta in Hw', Hai.
    rewrite (IH _ Hw' Hrest), Hai, (call_it norm s j A S Hw Hj).
    destruct (j =? advance_index s); cbn [length]; lia.
Qed.


(** No call writes a stored constant that is still undefined once the
    counter has passed 1 (with [slack < 1]). *)
Lemma undefined_slot_kept (s : t) (j : Z) (Xs : list ndarray) (k : nat) :
  wf s -> 1 < it s -> (slack s < 1)%Q ->
  nth k (stored s) None = None ->
  nth k (stored (state (__call__ norm j Xs s))) None = None.
Proof.
  intros H Hit Hsl Hbad. wf_destruct s H. cbn [it slack stored] in *.
  set (o := __call__ norm j Xs _).
  assert (Ho : o = __call__ norm j Xs
                     (mk sl ws wa ms ai i [d0; d1] [l0; l1] [v0; v1]))
    by reflexivity.
  clearbody o. ctl_blocks_in Ho.
  repeat (ctl_any_case Ho; cbn in Ho).
  all: subst o; cbn; bool_facts.
  all: destruct k as [|[|k]]; cbn in *.
  all: first [reflexivity | assumption | discriminate Hbad | refute_leaf].
Qed.

(** A call for a factor whose stored constant is undefined fails with a
    [TypeError] once the counter has passed 1: on line 89 when it is due,
    on line 99 when it is not. *)
Lemma undefined_slot_raises (s : t) (j : Z) (A S : ndarray) :
  wf s -> j = 0 \/ j = 1 -> 1 < it s -> (slack s < 1)%Q ->
  nth (Z.to_nat j) (stored s) None = None ->
  exists l, (l = 89 \/ l = 99) /\
    result (__call__ norm j [A; S] s) = Raise TypeError l.
Proof.
  intros H Hj Hit Hsl Hbad. wf_destruct s H. cbn [it slack stored] in *.
  destruct Hj as [-> | ->];
    [change (Z.to_nat 0) with 0%nat in * | change (Z.to_nat 1) with 1%nat in *];
    cbn [nth] in *.
  - subst v0.
    set (o := __call__ norm 0 _ _).
    assert (Ho : o = __call__ norm 0 [A; S]
                       (mk sl ws wa ms ai i [d0; d1] [l0; l1] [None; v1]))
      by reflexivity.
    clearbody o. ctl_call_in Ho.
    change (0 =? 0) with true in Ho. cbv iota in Ho. cbn in Ho.
    repeat (ctl_case_in Ho; cbn in Ho).
    all: subst o; cbn; bool_facts.
    all: first
      [ eexists; split; [|reflexivity];
        first [left; reflexivity | right; reflexivity]
      | refute_leaf ].
  - subst v1.
    set (o := __call__ norm 1 _ _).
    assert (Ho : o = __call__ norm 1 [A; S]
                       (mk sl ws wa ms ai i [d0; d1] [l0; l1] [v0; None]))
      by reflexivity.
    clearbody o. ctl_call_in Ho.
    change (1 =? 0) with false in Ho. cbv iota in Ho. cbn in Ho.
    repeat (ctl_case_in Ho; cbn in Ho).
    all: subst o; cbn; bool_facts.
    all: first
      [ eexists; split; [|reflexivity];
        first [left; reflexivity | right; reflexivity]
      | refute_leaf ].
Qed.

(** X11.  The controller does not recover from an undefined stored
    constant: once [it > 1] (and [slack < 1]) while [stored[j]] is still
    [None], no later call, for either factor and on any input, writes
    [stored[j]], and every later call for factor [j] raises [TypeError],
    on line 89 or on line 99. *)
Theorem undefined_stored_is_permanent (s : t) (j : Z)
  (js : list (Z * list ndarray)) (A S : ndarray) :
  wf s -> j = 0 \/ j = 1 -> 1 < it s -> (slack s < 1)%Q ->
  nth (Z.to_nat j) (stored s) None = None ->
  nth (Z.to_nat j) (stored (calls norm s js)) None = None /\
  exists l, (l = 89 \/ l = 99) /\
    result (__call__ norm j [A; S] (calls norm s js)) = Raise TypeError l.
Proof.
  intros Hw Hj Hit Hsl Hbad.
  assert (Hinv : wf (calls norm s js) /\ 1 < it (calls norm s js) /\
                 (slack (calls norm s js) < 1)%Q /\
                 nth (Z.to_nat j) (stored (calls norm s js)) None = None).
  { apply (calls_invariant norm
             (fun s' => wf s' /\ 1 < it s' /\ (slack s' < 1)%Q /\
                        nth (Z.to_nat j) (stored s') None = None));
      [|repeat split; try apply Hw; assumption].
    intros s1 j1 Xs1 (Hw1 & Hit1 & Hsl1 & Hst1).
    destruct (call_preserves norm s1 j1 Xs1 Hw1)
      as (Hw' & Hsl' & _ & _ & Hit' & _).
    cbv zeta in Hw', Hsl', Hit'.
    split; [exact Hw'|].
    split; [destruct Hit' as [-> | [-> _]]; lia|].
    split; [rewrite Hsl'; exact Hsl1|].
    apply undefined_slot_kept; assumption. }
  destruct Hinv as (Hw' & Hit' & Hsl' & Hst').
  split; [exact Hst'|].
  apply undefined_slot_raises; assumption.
Qed.

Ltac use_usable H :=
  let q := fresh "q" in let E := fresh "E" in let Hq := fresh "Hq" in
  destruct H as (q & E & Hq);
  first [ discriminate E
        | injection E as E; subst; first [contradiction | absurd_leaf] ].

(** A call returns, and leaves a usable constant, when the constant it
    finds is usable, or when it is the factor's first recompute and the
    counter has not passed 1; the fresh bound must not be zero. *)
Lemma call_returns (s : t) (j : Z) (A S : ndarray) :
  wf s -> j = 0 \/ j = 1 ->
  usable (nth (Z.to_nat j) (stored s) None) \/
  (nth (Z.to_nat j) (last s) 0 + nth (Z.to_nat j) (stride s) 0 <= it s /\
   it s + (if j =? advance_index s then 1 else 0) <= 1) ->
  ~ (lipschitz_bound norm s j A S == 0)%Q ->
  (exists step, result (__call__ norm j [A; S] s) = Ok step) /\
  usable (nth (Z.to_nat j) (stored (state (__call__ norm j [A; S] s))) None).
Proof.
  intros H Hj Hcase HL. wf_destruct s H.
  unfold lipschitz_bound in HL.
  cbn [it slack stored last stride advance_index WAmax WSmax] in *.
  destruct Hj as [-> | ->];
    [change (Z.to_nat 0) with 0%nat in *; change (0 =? 0) with true in HL
    |change (Z.to_nat 1) with 1%nat in *; change (1 =? 0) with false in HL];
    cbn [nth] in *; cbv iota in HL.
  - set (o := __call__ norm 0 _ _).
    assert (Ho : o = __call__ norm 0 [A; S]
                       (mk sl ws wa ms ai i [d0; d1] [l0; l1] [v0; v1]))
      by reflexivity.
    clearbody o. ctl_call_in Ho.
    change (0 =? 0) with true in Ho. cbv iota in Ho. cbn in Ho.
    repeat (ctl_case_in Ho; cbn in Ho).
    all: subst o; cbn; bool_facts.
    all: first
      [ split; [eexists; reflexivity | eexists; split; [reflexivity|assumption]]
      | refute_leaf
      | exfalso; destruct Hcase as [Hu | (Hd & Hi)];
        [ use_usable Hu | first [lia | contradiction] ] ].
  - set (o := __call__ norm 1 _ _).
    assert (Ho : o = __call__ norm 1 [A; S]
                       (mk sl ws wa ms ai i [d0; d1] [l0; l1] [v0; v1]))
      by reflexivity.
    clearbody o. ctl_call_in Ho.
    change (1 =? 0) with false in Ho. cbv iota in Ho. cbn in Ho.
    repeat (ctl_case_in Ho; cbn in Ho).
    all: subst o; cbn; bool_facts.
    all: first
      [ split; [eexists; reflexivity | eexists; split; [reflexivity|assumption]]
      | refute_leaf
      | exfalso; destruct Hcase as [Hu | (Hd & Hi)];
        [ use_usable Hu | first [lia | contradiction] ] ].
Qed.


Lemma call_weights (s : t) (j : Z) (Xs : list ndarray) :
  wf s ->
  WAmax (state (__call__ norm j Xs s)) = WAmax s /\
  WSmax (state (__call__ norm j Xs s)) = WSmax s.
Proof.
  intros H.
  destruct (call_frame norm s j Xs H)
    as (r & i' & sd' & la' & st' & log & E & _).
  rewrite E. split; reflexivity.
Qed.

Lemma lipschitz_bound_nonzero (s : t) (j : Z) (A S : ndarray) :
  ~ (norm (norm_argument j A S) == 0)%Q ->
  ~ (WAmax s == 0)%Q -> ~ (WSmax s == 0)%Q ->
  ~ (lipschitz_bound norm s j A S == 0)%Q.
Proof.
  intros Hn HA HS. unfold lipschitz_bound. unfold norm_argument in Hn.
  destruct (j =? 0); intros H0; apply Qmult_integral in H0;
    destruct H0 as [H0 | H0]; contradiction.
Qed.

(** Once both stored constants are usable, every call on factor 0 or 1
    returns, as long as no fresh bound is zero. *)
Lemma usable_run (js : list (Z * list ndarray)) (s : t) :
  wf s ->
  usable (nth 0 (stored s) None) -> usable (nth 1 (stored s) None) ->
  ~ (WAmax s == 0)%Q -> ~ (WSmax s == 0)%Q ->
  Forall (fun c => (fst c = 0 \/ fst c = 1) /\
                   exists A S, snd c = [A; S] /\
                     ~ (norm (norm_argument (fst c) A S) == 0)%Q) js ->
  Forall (fun r => exists step, r = Ok step) (results norm s js).
Proof.
  revert s. induction js as [|[j Xs] js IH];
    intros s Hw H0 H1 HA HS Hjs; [constructor|].
  inversion Hjs as [|c cs (Hj & A & S & HXs & Hn) Hrest]; subst.
  cbn [fst snd] in Hj, HXs, Hn. subst Xs. cbn [results].
  assert (HL := lipschitz_bound_nonzero s j A S Hn HA HS).
  destruct (call_preserves norm s j [A; S] Hw) as (Hw' & _).
  destruct (call_weights s j [A; S] Hw) as (EA & ES).
  cbv zeta in Hw'.
  assert (Hu : usable (nth (Z.to_nat j) (stored s) None))
    by (destruct Hj as [-> | ->]; assumption).
  destruct (call_returns s j A S Hw Hj (or_introl Hu) HL) as (Hret & Hu').
  constructor; [exact Hret|].
  apply (IH _ Hw').
  - destruct Hj as [-> | ->]; [exact Hu'|].
    destruct (call_other_factor norm s 1 [A; S] 0%nat Hw) as (_ & _ & E);
      [discriminate|]. cbv zeta in E. rewrite E. exact H0.
  - destruct Hj as [-> | ->]; [|exact Hu'].
    destruct (call_other_factor norm s 0 [A; S] 1%nat Hw) as (_ & _ & E);
      [discriminate|]. cbv zeta in E. rewrite E. exact H1.
  - rewrite EA. exact HA.
  - rewrite ES. exact HS.
  - exact Hrest.
Qed.

Lemma init_default_order (sl : Q) (Wmax : option Q) (ms : Z)
  (WA WS : option Q) (s0 : t) :
  __init__ sl Wmax ms None WA WS = Ok s0 ->
  exists ws wa,
    s0 = mk sl ws wa ms 1 0 [1; 1] [-1; -1] [None; None].
Proof.
  unfold __init__.
  destruct (negb (Qlt_bool 0 sl && Qle_bool sl 1)); [discriminate|].
  destruct WA, Wmax, WS; cbn [res_bind]; intros E; injection E as <-;
    eexists; eexists; reflexivity.
Qed.

Lemma schedule_AS_valid (rounds : list (list ndarray * list ndarray)) :
  Forall (fun r => exists A0 S0 A1 S1,
            fst r = [A0; S0] /\ snd r = [A1; S1] /\
            ~ (norm (T S0) == 0)%Q /\ ~ (norm A1 == 0)%Q) rounds ->
  Forall (fun c => (fst c = 0 \/ fst c = 1) /\
                   exists A S, snd c = [A; S] /\
                     ~ (norm (norm_argument (fst c) A S) == 0)%Q)
    (schedule_AS rounds).
Proof.
  induction 1 as [|r rounds (A0 & S0 & A1 & S1 & E0 & E1 & H0 & H1) _ IH];
    cbn; [constructor|].
  constructor.
  { split; [left; reflexivity|]. exists A0, S0. split; assumption. }
  constructor.
  { split; [right; reflexivity|]. exists A1, S1. split; assumption. }
  exact IH.
Qed.

(** X12.  Under the solver's default schedule the controller never fails:
    a controller constructed with [update_order = None] and called for
    factor 0, then factor 1, round after round, returns a step size at
    every call, provided the weight bounds are not zero and the spectral
    norm is not zero on the arrays it is evaluated on ([S^T] in the calls
    for factor 0, [A] in the calls for factor 1). *)
Theorem default_schedule_returns (sl : Q) (Wmax : option Q) (ms : Z)
  (WA WS : option Q) (s0 : t)
  (rounds : list (list ndarray * list ndarray)) :
  __init__ sl Wmax ms None WA WS = Ok s0 ->
  ~ (WAmax s0 == 0)%Q -> ~ (WSmax s0 == 0)%Q ->
  Forall (fun r => exists A0 S0 A1 S1,
            fst r = [A0; S0] /\ snd r = [A1; S1] /\
            ~ (norm (T S0) == 0)%Q /\ ~ (norm A1 == 0)%Q) rounds ->
  Forall (fun r => exists step, r = Ok step)
    (results norm s0 (schedule_AS rounds)).
Proof.
  intros Hinit HA HS Hrounds.
  destruct (init_default_order _ _ _ _ _ _ Hinit) as (ws & wa & ->).
  destruct Hrounds
    as [|[Xs0 Xs1] rest (A0 & S0 & A1 & S1 & E0 & E1 & Hn0 & Hn1) Hrest];
    [constructor|].
  cbn [fst snd] in E0, E1. subst Xs0 Xs1.
  cbn [schedule_AS flat_map app fst snd results].
  set (s := mk sl ws wa ms 1 0 [1; 1] [-1; -1] [None; None]) in *.
  assert (Hw : wf s) by (repeat split).
  set (s1 := state (__call__ norm 0 [A0; S0] s)).
  set (s2 := state (__call__ norm 1 [A1; S1] s1)).
  (* first call: factor 0 *)
  destruct (call_returns s 0 A0 S0 Hw (or_introl eq_refl))
    as (Hret0 & Hu0).
  { right. unfold s. split; apply Z.leb_le; reflexivity. }
  { apply lipschitz_bound_nonzero; assumption. }
  fold s1 in Hu0.
  destruct (call_preserves norm s 0 [A0; S0] Hw)
    as (Hw1 & _ & _ & Hai1 & _).
  destruct (call_weights s 0 [A0; S0] Hw) as (EA1 & ES1).
  destruct (call_other_factor norm s 0 [A0; S0] 1%nat Hw)
    as (Esd1 & Ela1 & Est1); [discriminate|].
  pose proof (call_it norm s 0 A0 S0 Hw (or_introl eq_refl)) as Eit1.
  cbv zeta in Hw1, Hai1, Esd1, Ela1, Est1.
  fold s1 in Hw1, Hai1, EA1, ES1, Esd1, Ela1, Est1, Eit1.
  cbn in Hai1, Esd1, Ela1, Est1, Eit1.
  (* second call: factor 1 *)
  destruct (call_returns s1 1 A1 S1 Hw1 (or_intror eq_refl))
    as (Hret1 & Hu1).
  { right. change (Z.to_nat 1) with 1%nat.
    rewrite Esd1, Ela1, Eit1, Hai1.
    split; apply Z.leb_le; reflexivity. }
  { apply lipschitz_bound_nonzero; [assumption | rewrite EA1 | rewrite ES1];
      assumption. }
  fold s2 in Hu1.
  destruct (call_preserves norm s1 1 [A1; S1] Hw1) as (Hw2 & _).
  destruct (call_weights s1 1 [A1; S1] Hw1) as (EA2 & ES2).
  destruct (call_other_factor norm s1 1 [A1; S1] 0%nat Hw1)
    as (_ & _ & Est2); [discriminate|].
  cbv zeta in Hw2, Est2. fold s2 in Hw2, EA2, ES2, Est2.
  constructor; [exact Hret0|]. constructor; [exact Hret1|].
  apply (usable_run (schedule_AS rest) s2 Hw2).
  - rewrite Est2. exact Hu0.
  - exact Hu1.
  - rewrite EA2, EA1. exact HA.
  - rewrite ES2, ES1. exact HS.
  - apply schedule_AS_valid. exact Hrest.
Qed.

(** A branching point of a second call: a test the first call already
    decided keeps its value. *)
Ltac ctl_case_again H :=
  match type of H with
  | context [py_index 2 0] => rewrite py_index_2_0 in H
  | context [py_index 2 1] => rewrite py_index_2_1 in H
  | context [if ?c then _ else _] =>
      lazymatch c with
      | context [if _ then _ else _] => fail
      | context [match _ with _ => _ end] => fail
      | _ => match goal with
             | E : c = _ |- _ => rewrite E in H
             | _ => destruct c eqn:?
             end
      end
  | context [match ?v with Some _ => _ | None => _ end] =>
      lazymatch v with
      | context [if _ then _ else _] => fail
      | context [match _ with _ => _ end] => fail
      | _ => destruct v eqn:?
      end
  end.

(** X13.  A repeated query is served from the cache: after a call for
    factor [j] that returned, on a controller whose strides are at least 1
    and whose factor [j] does not advance the counter, calling again for
    [j], on any factors, evaluates no spectral norm, changes nothing and
    returns the same step size. *)
Theorem repeated_call_is_cached (s : t) (j : Z) (A S A' S' : ndarray)
  (step : Q) :
  wf s -> j = 0 \/ j = 1 -> j <> advance_index s ->
  1 <= max_stride s -> 1 <= nth (Z.to_nat j) (stride s) 0 ->
  result (__call__ norm j [A; S] s) = Ok step ->
  __call__ norm j [A'; S'] (state (__call__ norm j [A; S] s)) =
  mk_outcome (Ok step) (state (__call__ norm j [A; S] s)) [].
Proof.
  intros H Hj Hne Hms Hd. wf_destruct s H.
  cbn [advance_index max_stride stride] in *.
  destruct Hj as [-> | ->];
    [change (Z.to_nat 0) with 0%nat in * | change (Z.to_nat 1) with 1%nat in *];
    cbn [nth] in *.
  - set (o := __call__ norm 0 [A; S] _).
    assert (Ho : o = __call__ norm 0 [A; S]
                       (mk sl ws wa ms ai i [d0; d1] [l0; l1] [v0; v1]))
      by reflexivity.
    clearbody o. ctl_call_in Ho.
    change (0 =? 0) with true in Ho. cbv iota in Ho. cbn in Ho.
    repeat (ctl_case_in Ho; cbn in Ho).
    all: subst o; cbn [result state]; intros Hres;
      try discriminate Hres; injection Hres as <-.
    all: match goal with
         | |- ?c = _ =>
             let o2 := fresh "o2" in let Ho2 := fresh "Ho2" in
             set (o2 := c); assert (Ho2 : o2 = c) by reflexivity;
             clearbody o2; ctl_call_in Ho2;
             change (0 =? 0) with true in Ho2; cbv iota in Ho2; cbn in Ho2;
             repeat (ctl_case_again Ho2; cbn in Ho2);
             subst o2
         end.
    all: bool_facts; first [reflexivity | refute_leaf].
  - set (o := __call__ norm 1 [A; S] _).
    assert (Ho : o = __call__ norm 1 [A; S]
                       (mk sl ws wa ms ai i [d0; d1] [l0; l1] [v0; v1]))
      by reflexivity.
    clearbody o. ctl_call_in Ho.
    change (1 =? 0) with false in Ho. cbv iota in Ho. cbn in Ho.
    repeat (ctl_case_in Ho; cbn in Ho).
    all: subst o; cbn [result state]; intros Hres;
      try discriminate Hres; injection Hres as <-.
    all: match goal with
         | |- ?c = _ =>
             let o2 := fresh "o2" in let Ho2 := fresh "Ho2" in
             set (o2 := c); assert (Ho2 : o2 = c) by reflexivity;
             clearbody o2; ctl_call_in Ho2;
             change (1 =? 0) with false in Ho2; cbv iota in Ho2; cbn in Ho2;
             repeat (ctl_case_again Ho2; cbn in Ho2);
             subst o2
         end.
    all: bool_facts; first [reflexivity | refute_leaf].
Qed.

Lemma getitem_short {A : Type} (line : Z) (l : list A) :
  (length l < 2)%nat -> getitem line l 1 = Raise IndexError line.
Proof.
  intros Hl. unfold getitem.
  destruct l as [|a [|b l]]; cbn in Hl; try lia; reflexivity.
Qed.

(** X15.  A failed recompute is not rolled back: when the call for factor
    0 is due but [Xs] holds fewer than two arrays, [Xs[1]] raises
    [IndexError] on line 81 after line 79 has already moved [last[0]] to
    the current iteration; the counter, the strides and the stored
    constants are as before, and no spectral norm was evaluated. *)
Theorem short_factor_list_raises (s : t) (Xs : list ndarray) :
  wf s -> (length Xs < 2)%nat ->
  nth 0 (last s) 0 + nth 0 (stride s) 0 <= it s ->
  result (__call__ norm 0 Xs s) = Raise IndexError 81 /\
  norm_calls (__call__ norm 0 Xs s) = [] /\
  nth 0 (last (state (__call__ norm 0 Xs s))) 0 = it s /\
  nth 1 (last (state (__call__ norm 0 Xs s))) 0 = nth 1 (last s) 0 /\
  it (state (__call__ norm 0 Xs s)) = it s /\
  stride (state (__call__ norm 0 Xs s)) = stride s /\
  stored (state (__call__ norm 0 Xs s)) = stored s.
Proof.
  intros H HXs Hdue. wf_destruct s H. cbn [it last stride nth] in Hdue.
  set (o := __call__ norm 0 Xs _).
  assert (Ho : o = __call__ norm 0 Xs
                     (mk sl ws wa ms ai i [d0; d1] [l0; l1] [v0; v1]))
    by reflexivity.
  clearbody o.
  unfold __call__, lipschitz in Ho.
  change (0 =? 0) with true in Ho. cbv iota in Ho.
  rewrite (getitem_short 81 Xs HXs) in Ho.
  unfold bind, ret, lift, get, modify, getitem, setitem in Ho.
  cbn in Ho.
  repeat (ctl_case_in Ho; cbn in Ho).
  all: subst o; cbn; bool_facts.
  all: first [repeat split; reflexivity | refute_leaf].
Qed.

(** X16.  A negative index wraps around the per-factor lists but is not
    the factor it addresses: a due call with [j = -2] reads and writes the
    entries of factor 0, yet, [j] not being 0, it evaluates the spectral
    norm on [A = Xs[0]] and stores [norm(A) * WSmax], the bound of factor
    1, in [stored[0]]; the entries of factor 1 are untouched. *)
Theorem negative_index_wraps (s : t) (A S : ndarray) :
  wf s ->
  nth 0 (last s) 0 + nth 0 (stride s) 0 <= it s ->
  norm_calls (__call__ norm (-2) [A; S] s) = [A] /\
  nth 0 (last (state (__call__ norm (-2) [A; S] s))) 0 = it s /\
  ((forall e, result (__call__ norm (-2) [A; S] s) <> Raise e 89) ->
   nth 0 (stored (state (__call__ norm (-2) [A; S] s))) None
   = Some (norm A * WSmax s)%Q) /\
  nth 1 (last (state (__call__ norm (-2) [A; S] s))) 0 = nth 1 (last s) 0 /\
  nth 1 (stored (state (__call__ norm (-2) [A; S] s))) None
  = nth 1 (stored s) None.
Proof.
  intros H Hdue. wf_destruct s H. cbn [it last stride nth WSmax] in *.
  set (o := __call__ norm (-2) [A; S] _).
  assert (Ho : o = __call__ norm (-2) [A; S]
                     (mk sl ws wa ms ai i [d0; d1] [l0; l1] [v0; v1]))
    by reflexivity.
  clearbody o. ctl_call_in Ho.
  change (-2 =? 0) with false in Ho. cbv iota in Ho.
  change (py_index 2 0) with (Some 0%nat) in Ho. cbn in Ho.
  repeat (first [ progress change (py_index 2 (-2)) with (Some 0%nat) in Ho
                | ctl_case_in Ho ]; cbn in Ho).
  all: subst o; cbn; bool_facts.
  all: first
    [ repeat split; first [reflexivity | intros Hn; exfalso; absurd_leaf]
    | refute_leaf ].
Qed.

End ControllerExtras.

(** ** Driver: failures before the solver runs *)

Section DriverExtras.

Variable passthrough : Type.
Variable trace : Type.
Variable bsdmm :
  list ndarray -> update_rule -> Steps_AS.t -> passthrough ->
  option (list Z) -> bool -> res (list ndarray * trace).

(** X14.  [nmf] builds the step-size controller before it hands anything
    to the solver: with [W] omitted or a non-empty array, a [slack]
    outside (0, 1] makes [nmf] fail with the [AssertionError] of line 49,
    and an empty [update_order] with the [IndexError] of line 69, whatever
    the solver would do. *)
Theorem nmf_fails_before_solving (Y A0 S0 : ndarray) (W : weight)
  (prox_A prox_S : prox) (sl : Q) (uo : option (list Z)) (tb : bool)
  (rest : passthrough) :
  W = W_None \/ (exists m, W = W_array m /\ concat (rows m) <> []) ->
  (~ ((0 < sl)%Q /\ (sl <= 1)%Q) ->
   nmf passthrough trace bsdmm Y A0 S0 W prox_A prox_S sl uo tb rest
   = Raise AssertionError 49) /\
  ((0 < sl)%Q /\ (sl <= 1)%Q -> uo = Some [] ->
   nmf passthrough trace bsdmm Y A0 S0 W prox_A prox_S sl uo tb rest
   = Raise IndexError 69).
Proof.
  intros HW.
  assert (HN : exists WW, normalize_W W = Ok WW).
  { destruct HW as [-> | (m & -> & Hne)].
    - eexists. reflexivity.
    - destruct (array_max_spec 146 m Hne) as (w & Hw & _).
      eexists. unfold normalize_W. rewrite Hw. reflexivity. }
  destruct HN as (WW & HN).
  unfold nmf. rewrite HN. cbn [res_bind]. split.
  - intros Hs.
    assert (E : Qlt_bool 0 sl && Qle_bool sl 1 = false).
    { destruct (Qlt_bool 0 sl && Qle_bool sl 1) eqn:E; [|reflexivity].
      exfalso. apply Hs. apply andb_prop in E. destruct E as [E0 E1].
      split; [apply Qlt_bool_iff, E0 | apply Qle_bool_iff, E1]. }
    unfold __init__. rewrite E. reflexivity.
  - intros [H0 H1] ->.
    assert (E : Qlt_bool 0 sl && Qle_bool sl 1 = true).
    { apply andb_true_intro. split;
        [apply Qlt_bool_iff, H0 | apply Qle_bool_iff, H1]. }
    unfold __init__. rewrite E. reflexivity.
Qed.

End DriverExtras.

(** ** Further runs on concrete inputs *)

Lemma inner_dimension_mismatch_witness :
  ncols ex_A <> nrows (array_1x1 1) /\
  delta_data ex_A (array_1x1 1) ex_Y (W_scalar 1) = Raise ValueError 12 /\
  grad_likelihood_A ex_A (array_1x1 1) ex_Y (W_scalar 1)
  = Raise ValueError 12 /\
  grad_likelihood_S (array_1x1 1) ex_A ex_Y (W_scalar 1)
  = Raise ValueError 12 /\
  prox_likelihood ex_A (1 # 10) [ex_A; array_1x1 1] (Some 0) ex_Y
    (W_scalar 1) prox_plus prox_plus
  = Raise ValueError 12 /\
  prox_likelihood (array_1x1 1) (1 # 10) [ex_A; array_1x1 1] (Some 1) ex_Y
    (W_scalar 1) prox_plus prox_plus
  = Raise ValueError 12.
Proof.
  split; [discriminate|].
  apply (inner_dimension_mismatch ex_A (array_1x1 1) ex_Y ex_A (array_1x1 1)
           (W_scalar 1) (1 # 10) prox_plus prox_plus).
  discriminate.
Defined.

Lemma weight_none_raises_witness :
  has_shape 2 2 ex_A /\ has_shape 2 2 ex_S /\ has_shape 2 2 ex_Y /\
  delta_data ex_A ex_S ex_Y W_None = Raise TypeError 12 /\
  prox_likelihood ex_A (1 # 10) [ex_A; ex_S] (Some 0) ex_Y W_None
    prox_plus prox_plus
  = Raise TypeError 12 /\
  prox_likelihood ex_S (1 # 10) [ex_A; ex_S] None ex_Y W_None
    prox_plus prox_plus
  = Raise TypeError 12.
Proof.
  destruct ex_shapes as (HA & HS & HY).
  split; [exact HA|]. split; [exact HS|]. split; [exact HY|].
  apply (weight_none_raises 2 2 2 ex_A ex_S ex_Y ex_A ex_S (1 # 10)
           prox_plus prox_plus HA HS HY).
Defined.

Lemma ex_exact :
  forall i j, (i < 2)%nat -> (j < 2)%nat ->
    (sumQ 2 (fun k => entry ex_A i k * entry ex_S k j) == entry ex_S i j)%Q.
Proof.
  intros [|[|i]] [|[|j]] Hi Hj; try lia; reflexivity.
Defined.

Lemma exact_factorization_stationary_witness :
  has_shape 2 2 ex_A /\ has_shape 2 2 ex_S /\ has_shape 2 2 ex_S /\
  broadcastable 2 2 (W_scalar 3) /\
  (forall i j, (i < 2)%nat -> (j < 2)%nat ->
     (sumQ 2 (fun k => entry ex_A i k * entry ex_S k j) == entry ex_S i j)%Q) /\
  exists GA GS A' S',
    grad_likelihood_A ex_A ex_S ex_S (W_scalar 3) = Ok GA /\
    grad_likelihood_S ex_S ex_A ex_S (W_scalar 3) = Ok GS /\
    (forall i k, (i < 2)%nat -> (k < 2)%nat -> (entry GA i k == 0)%Q) /\
    (forall k j, (k < 2)%nat -> (j < 2)%nat -> (entry GS k j == 0)%Q) /\
    prox_likelihood ex_A (1 # 10) [ex_A; ex_S] (Some 0) ex_S (W_scalar 3)
      prox_id prox_id = Ok A' /\
    prox_likelihood ex_S (1 # 10) [ex_A; ex_S] (Some 1) ex_S (W_scalar 3)
      prox_id prox_id = Ok S' /\
    has_shape 2 2 A' /\ has_shape 2 2 S' /\
    (forall i k, (i < 2)%nat -> (k < 2)%nat ->
       (entry A' i k == entry ex_A i k)%Q) /\
    (forall k j, (k < 2)%nat -> (j < 2)%nat ->
       (entry S' k j == entry ex_S k j)%Q).
Proof.
  destruct ex_shapes as (HA & HS & _).
  split; [exact HA|]. split; [exact HS|]. split; [exact HS|].
  split; [exact I|]. split; [exact ex_exact|].
  apply (exact_factorization_stationary 2 2 2 ex_A ex_S ex_S (W_scalar 3)
           (1 # 10) HA HS HS I ex_exact).
Defined.

Lemma gradient_transpose_duality_witness :
  has_shape 2 2 ex_A /\ has_shape 2 2 ex_S /\ has_shape 2 2 ex_Y /\
  exists GS GA',
    grad_likelihood_S ex_S ex_A ex_Y (W_scalar 3) = Ok GS /\
    grad_likelihood_A (T ex_S) (T ex_A) (T ex_Y) (W_scalar 3) = Ok GA' /\
    has_shape 2 2 GS /\ has_shape 2 2 GA' /\
    forall k j, (k < 2)%nat -> (j < 2)%nat ->
      (entry GS k j == entry GA' j k)%Q.
Proof.
  destruct ex_shapes as (HA & HS & HY).
  split; [exact HA|]. split; [exact HS|]. split; [exact HY|].
  apply (gradient_transpose_duality 2 2 2 ex_A ex_S ex_Y 3 HA HS HY).
Defined.

Lemma init_attributes_witness :
  __init__ (9 # 10) (Some 2%Q) 100 (Some [1; 0]) None (Some 5%Q)
  = Ok (mk (9 # 10) 5 2 100 0 0 [1; 1] [-1; -1] [None; None]) /\
  WAmax (mk (9 # 10) 5 2 100 0 0 [1; 1] [-1; -1] [None; None]) = 2%Q /\
  WSmax (mk (9 # 10) 5 2 100 0 0 [1; 1] [-1; -1] [None; None]) = 5%Q /\
  advance_index (mk (9 # 10) 5 2 100 0 0 [1; 1] [-1; -1] [None; None])
  = List.last [1; 0] 1 /\
  Some [1; 0] <> Some [].
Proof.
  split; [reflexivity|].
  apply (init_attributes (9 # 10) (Some 2%Q) 100 (Some [1; 0]) None
           (Some 5%Q)).
  reflexivity.
Defined.

Lemma init_empty_update_order_witness :
  (0 < 9 # 10)%Q /\ (9 # 10 <= 1)%Q /\
  __init__ (9 # 10) None 100 (Some []) None None = Raise IndexError 69.
Proof.
  assert (H0 : (0 < 9 # 10)%Q) by reflexivity.
  assert (H1 : (9 # 10 <= 1)%Q) by discriminate.
  split; [exact H0|]. split; [exact H1|].
  apply (init_empty_update_order (9 # 10) None 100 None None H0 H1).
Defined.

Lemma ex_controller_wf : wf ex_controller.
Proof. repeat split. Defined.

Lemma call_index_out_of_range_witness :
  wf ex_controller /\ (2 < -2 \/ 2 <= 2) /\
  __call__ spectral_norm_1x1 2 (ex_Xs 1) ex_controller
  = mk_outcome (Raise IndexError 78) ex_controller [].
Proof.
  split; [exact ex_controller_wf|]. split; [right; lia|].
  apply (call_index_out_of_range spectral_norm_1x1 ex_controller 2 (ex_Xs 1)
           ex_controller_wf).
  right. lia.
Defined.

(** [Steps_AS(slack=1)]. *)
Lemma slack_one_never_adapts_witness :
  wf ex_controller_one /\
  ~ (slack ex_controller_one < 1)%Q /\
  stride (calls spectral_norm_1x1
            ex_controller_one
            [(1, ex_Xs 16); (1, ex_Xs 17); (0, ex_Xs 17)])
  = stride ex_controller_one /\
  Forall (fun r => forall e, r <> Raise e 89)
    (results spectral_norm_1x1
       ex_controller_one
       [(1, ex_Xs 16); (1, ex_Xs 17); (0, ex_Xs 17)]).
Proof.
  assert (Hw : wf ex_controller_one)
    by (repeat split).
  assert (Hs : ~ (slack ex_controller_one < 1)%Q)
    by (intros H; discriminate H).
  split; [exact Hw|]. split; [exact Hs|].
  apply (slack_one_never_adapts spectral_norm_1x1 _
           [(1, ex_Xs 16); (1, ex_Xs 17); (0, ex_Xs 17)] Hw Hs).
Defined.

Lemma saturated_stride_stays_witness :
  wf ex_controller_saturated /\
  nth 1 (stride ex_controller_saturated) 0
  = max_stride ex_controller_saturated /\
  nth 1 (stride (calls spectral_norm_1x1
                   ex_controller_saturated
                   [(1, ex_Xs 16); (1, ex_Xs 17)])) 0
  = max_stride ex_controller_saturated.
Proof.
  assert (Hw : wf ex_controller_saturated)
    by (repeat split).
  split; [exact Hw|]. split; [reflexivity|].
  apply (saturated_stride_stays spectral_norm_1x1 _
           [(1, ex_Xs 16); (1, ex_Xs 17)] 1%nat Hw).
  reflexivity.
Defined.

Lemma ex_calls_valid :
  Forall (fun c : Z * list ndarray =>
            (fst c = 0 \/ fst c = 1) /\ exists A S, snd c = [A; S])
    [(0, ex_Xs 1); (1, ex_Xs 1); (1, ex_Xs 2)].
Proof.
  repeat constructor;
    first [left; reflexivity | right; reflexivity
          | eexists; eexists; reflexivity].
Defined.

Lemma it_counts_advances_witness :
  wf ex_controller /\
  Forall (fun c : Z * list ndarray =>
            (fst c = 0 \/ fst c = 1) /\ exists A S, snd c = [A; S])
    [(0, ex_Xs 1); (1, ex_Xs 1); (1, ex_Xs 2)] /\
  it (calls spectral_norm_1x1 ex_controller
        [(0, ex_Xs 1); (1, ex_Xs 1); (1, ex_Xs 2)]) =
  it ex_controller +
  Z.of_nat (length (filter (fun c => fst c =? advance_index ex_controller)
                      [(0, ex_Xs 1); (1, ex_Xs 1); (1, ex_Xs 2)])).
Proof.
  split; [exact ex_controller_wf|]. split; [exact ex_calls_valid|].
  apply (it_counts_advances spectral_norm_1x1 ex_controller _
           ex_controller_wf ex_calls_valid).
Defined.

Lemma undefined_stored_is_permanent_witness :
  wf ex_controller_late /\
  (0 = 0 \/ 0 = 1) /\
  1 < it ex_controller_late /\
  (slack ex_controller_late < 1)%Q /\
  nth (Z.to_nat 0) (stored ex_controller_late) None = None /\
  nth (Z.to_nat 0)
    (stored (calls spectral_norm_1x1
               ex_controller_late
               [(0, ex_Xs 1); (1, ex_Xs 2)])) None
  = None /\
  exists l, (l = 89 \/ l = 99) /\
    result (__call__ spectral_norm_1x1 0 [array_1x1 3; array_1x1 3]
              (calls spectral_norm_1x1
                 ex_controller_late
                 [(0, ex_Xs 1); (1, ex_Xs 2)]))
    = Raise TypeError l.
Proof.
  assert (Hw : wf ex_controller_late)
    by (repeat split).
  assert (Hit : 1 < it ex_controller_late) by reflexivity.
  assert (Hsl : (slack ex_controller_late < 1)%Q) by reflexivity.
  assert (Hu : nth (Z.to_nat 0) (stored ex_controller_late) None = None)
    by reflexivity.
  split; [exact Hw|]. split; [left; reflexivity|]. split; [exact Hit|].
  split; [exact Hsl|]. split; [exact Hu|].
  apply (undefined_stored_is_permanent spectral_norm_1x1 _ 0
           [(0, ex_Xs 1); (1, ex_Xs 2)] (array_1x1 3) (array_1x1 3)
           Hw (or_introl eq_refl) Hit Hsl Hu).
Defined.

Lemma ex_rounds_valid :
  Forall (fun r : list ndarray * list ndarray =>
            exists A0 S0 A1 S1,
              fst r = [A0; S0] /\ snd r = [A1; S1] /\
              ~ (spectral_norm_1x1 (T S0) == 0)%Q /\
              ~ (spectral_norm_1x1 A1 == 0)%Q)
    [(ex_Xs 1, ex_Xs 2); (ex_Xs 2, ex_Xs 3)].
Proof.
  repeat constructor; do 4 eexists;
    (split; [reflexivity|]); (split; [reflexivity|]);
    split; intros H; discriminate H.
Defined.

Lemma default_schedule_returns_witness :
  __init__ (9 # 10) None 100 None None None = Ok ex_controller /\
  ~ (WAmax ex_controller == 0)%Q /\ ~ (WSmax ex_controller == 0)%Q /\
  Forall (fun r : list ndarray * list ndarray =>
            exists A0 S0 A1 S1,
              fst r = [A0; S0] /\ snd r = [A1; S1] /\
              ~ (spectral_norm_1x1 (T S0) == 0)%Q /\
              ~ (spectral_norm_1x1 A1 == 0)%Q)
    [(ex_Xs 1, ex_Xs 2); (ex_Xs 2, ex_Xs 3)] /\
  Forall (fun r => exists step, r = Ok step)
    (results spectral_norm_1x1 ex_controller
       (schedule_AS [(ex_Xs 1, ex_Xs 2); (ex_Xs 2, ex_Xs 3)])).
Proof.
  assert (HA : ~ (WAmax ex_controller == 0)%Q) by (intros H; discriminate H).
  assert (HS : ~ (WSmax ex_controller == 0)%Q) by (intros H; discriminate H).
  split; [reflexivity|]. split; [exact HA|]. split; [exact HS|].
  split; [exact ex_rounds_valid|].
  apply (default_schedule_returns spectral_norm_1x1 (9 # 10) None 100 None
           None ex_controller _ eq_refl HA HS ex_rounds_valid).
Defined.

Lemma repeated_call_is_cached_witness :
  exists step,
    wf ex_controller /\ (0 = 0 \/ 0 = 1) /\
    0 <> advance_index ex_controller /\
    1 <= max_stride ex_controller /\
    1 <= nth (Z.to_nat 0) (stride ex_controller) 0 /\
    result (__call__ spectral_norm_1x1 0 (ex_Xs 2) ex_controller) = Ok step /\
    __call__ spectral_norm_1x1 0 [array_1x1 7; array_1x1 7]
      (state (__call__ spectral_norm_1x1 0 (ex_Xs 2) ex_controller)) =
    mk_outcome (Ok step)
      (state (__call__ spectral_norm_1x1 0 (ex_Xs 2) ex_controller)) [].
Proof.
  eexists.
  assert (Hne : 0 <> advance_index ex_controller) by discriminate.
  assert (Hms : 1 <= max_stride ex_controller) by discriminate.
  assert (Hd : 1 <= nth (Z.to_nat 0) (stride ex_controller) 0)
    by discriminate.
  split; [exact ex_controller_wf|]. split; [left; reflexivity|].
  split; [exact Hne|]. split; [exact Hms|]. split; [exact Hd|].
  split; [vm_compute; reflexivity|].
  apply (repeated_call_is_cached spectral_norm_1x1 ex_controller 0
           (array_1x1 2) (array_1x1 2) (array_1x1 7) (array_1x1 7) _
           ex_controller_wf (or_introl eq_refl) Hne Hms Hd).
  vm_compute. reflexivity.
Defined.

Lemma nmf_fails_before_solving_witness :
  ((W_array ex_Y = W_None) \/
   (exists m, W_array ex_Y = W_array m /\ concat (rows m) <> [])) /\
  ~ ((0 < 2)%Q /\ (2 <= 1)%Q) /\
  nmf unit unit bsdmm_stub ex_Y ex_A ex_S (W_array ex_Y) prox_plus prox_plus
    2 None false tt
  = Raise AssertionError 49.
Proof.
  assert (HW : (W_array ex_Y = W_None) \/
               (exists m, W_array ex_Y = W_array m /\ concat (rows m) <> [])).
  { right. exists ex_Y. split; [reflexivity | discriminate]. }
  assert (H2 : ~ ((0 < 2)%Q /\ (2 <= 1)%Q)).
  { intros [_ H]. apply H. reflexivity. }
  split; [exact HW|]. split; [exact H2|].
  apply (proj1 (nmf_fails_before_solving unit unit bsdmm_stub ex_Y ex_A ex_S
                  (W_array ex_Y) prox_plus prox_plus 2 None false tt HW) H2).
Defined.

Lemma short_factor_list_raises_witness :
  wf ex_controller /\ (length [array_1x1 1] < 2)%nat /\
  nth 0 (last ex_controller) 0 + nth 0 (stride ex_controller) 0
  <= it ex_controller /\
  result (__call__ spectral_norm_1x1 0 [array_1x1 1] ex_controller)
  = Raise IndexError 81 /\
  norm_calls (__call__ spectral_norm_1x1 0 [array_1x1 1] ex_controller)
  = [] /\
  nth 0 (last (state (__call__ spectral_norm_1x1 0 [array_1x1 1]
                        ex_controller))) 0 = it ex_controller /\
  nth 1 (last (state (__call__ spectral_norm_1x1 0 [array_1x1 1]
                        ex_controller))) 0 = nth 1 (last ex_controller) 0 /\
  it (state (__call__ spectral_norm_1x1 0 [array_1x1 1] ex_controller))
  = it ex_controller /\
  stride (state (__call__ spectral_norm_1x1 0 [array_1x1 1] ex_controller))
  = stride ex_controller /\
  stored (state (__call__ spectral_norm_1x1 0 [array_1x1 1] ex_controller))
  = stored ex_controller.
Proof.
  assert (Hl : (length [array_1x1 1] < 2)%nat) by (cbn; lia).
  assert (Hd : nth 0 (last ex_controller) 0 + nth 0 (stride ex_controller) 0
               <= it ex_controller) by discriminate.
  split; [exact ex_controller_wf|]. split; [exact Hl|]. split; [exact Hd|].
  apply (short_factor_list_raises spectral_norm_1x1 ex_controller
           [array_1x1 1] ex_controller_wf Hl Hd).
Defined.

Lemma negative_index_wraps_witness :
  wf ex_controller /\
  nth 0 (last ex_controller) 0 + nth 0 (stride ex_controller) 0
  <= it ex_controller /\
  norm_calls (__call__ spectral_norm_1x1 (-2) [array_1x1 2; array_1x1 3]
                ex_controller) = [array_1x1 2] /\
  nth 0 (last (state (__call__ spectral_norm_1x1 (-2)
                        [array_1x1 2; array_1x1 3] ex_controller))) 0
  = it ex_controller /\
  ((forall e, result (__call__ spectral_norm_1x1 (-2)
                        [array_1x1 2; array_1x1 3] ex_controller)
              <> Raise e 89) ->
   nth 0 (stored (state (__call__ spectral_norm_1x1 (-2)
                           [array_1x1 2; array_1x1 3] ex_controller))) None
   = Some (spectral_norm_1x1 (array_1x1 2) * WSmax ex_controller)%Q) /\
  nth 1 (last (state (__call__ spectral_norm_1x1 (-2)
                        [array_1x1 2; array_1x1 3] ex_controller))) 0
  = nth 1 (last ex_controller) 0 /\
  nth 1 (stored (state (__call__ spectral_norm_1x1 (-2)
                          [array_1x1 2; array_1x1 3] ex_controller))) None
  = nth 1 (stored ex_controller) None.
Proof.
  assert (Hd : nth 0 (last ex_controller) 0 + nth 0 (stride ex_controller) 0
               <= it ex_controller) by discriminate.
  split; [exact ex_controller_wf|]. split; [exact Hd|].
  apply (negative_index_wraps spectral_norm_1x1 ex_controller
           (array_1x1 2) (array_1x1 3) ex_controller_wf Hd).
Defined.
